(** * sol: streaming extraction of package metadata (src/lib/xml/metadata.c)

    A shallow embedding of the SAX callbacks and of [sol_metadata_load].
    C strings are [string]s, the parse flags are the integers of the C
    enumeration with their bitwise operations, a [char *] field that may be
    NULL is an [option string].  The callbacks mutate the parse context
    through a pointer; here every callback returns the updated context. *)

From Stdlib Require Import ZArith String Ascii List Bool Lia Permutation.
Import ListNotations.
Local Open Scope string_scope.
Local Open Scope Z_scope.

(** ** Data model *)

(** [struct SolMetadata].  The leading [eatom] header (reference count) is
    never read or written by the functions below and is left out. *)
Record SolMetadata : Type := mkSolMetadata {
  package_name : option string;
  component : option string
}.

(** [SolMetadataParseFlags]: the enumerators and their values. *)
Definition SolMetadataParseFlags : Type := Z.

Definition MDATA_MIN : SolMetadataParseFlags := Z.shiftl 1 0.
Definition MDATA_ROOT : SolMetadataParseFlags := Z.shiftl 1 1.
Definition MDATA_PACKAGE : SolMetadataParseFlags := Z.shiftl 1 2.
Definition MDATA_HISTORY : SolMetadataParseFlags := Z.shiftl 1 3.
Definition MDATA_SOURCE : SolMetadataParseFlags := Z.shiftl 1 4.
Definition MDATA_NAME : SolMetadataParseFlags := Z.shiftl 1 5.
Definition MDATA_COMPONENT : SolMetadataParseFlags := Z.shiftl 1 6.
Definition MDATA_PACKAGER : SolMetadataParseFlags := Z.shiftl 1 7.
Definition MDATA_EMAIL : SolMetadataParseFlags := Z.shiftl 1 8.

(** [struct MetaMap]; the key of the terminating entry is NULL. *)
Record MetaMap : Type := mkMetaMap {
  key : option string;
  flag : SolMetadataParseFlags
}.

Definition meta_mapping : list MetaMap :=
  [ mkMetaMap (Some "Package") MDATA_PACKAGE;
    mkMetaMap (Some "History") MDATA_HISTORY;
    mkMetaMap (Some "Source") MDATA_SOURCE;
    mkMetaMap (Some "Name") MDATA_NAME;
    mkMetaMap (Some "PartOf") MDATA_COMPONENT;
    mkMetaMap (Some "Packager") MDATA_PACKAGER;
    mkMetaMap (Some "Email") MDATA_EMAIL;
    mkMetaMap None 0 ].

(** [struct SolMetadataParseContext]; [metadata] stands for the record the
    pointer of the C field designates. *)
Record SolMetadataParseContext : Type := mkContext {
  flags : SolMetadataParseFlags;
  metadata : SolMetadata
}.

(** ** libc and libxml2 primitives used by the file *)

(** [xmlStrEqual] on two non-NULL strings. *)
Definition xmlStrEqual (a b : string) : bool := String.eqb a b.

(** [(size_t)len] for an [int] on an LP64 target. *)
Definition size_t_of_int (len : Z) : Z := len mod 2 ^ 64.

(** [strndup s n]: the bytes of [s] up to its terminator, at most [n] of
    them.  The end of the Rocq string plays the terminator when no NUL byte
    comes first.  Allocation failure is not modelled. *)
Fixpoint strndup (s : string) (n : Z) : string :=
  match s with
  | EmptyString => EmptyString
  | String c s' =>
      if n <=? 0 then EmptyString
      else if Ascii.eqb c Ascii.zero then EmptyString
      else String c (strndup s' (n - 1))
  end.

(** ** The SAX callbacks *)

Definition sol_sax_in_root (self : SolMetadataParseContext) : bool :=
  negb (Z.land (flags self) MDATA_ROOT =? 0).

Definition sol_sax_flip_state (self : SolMetadataParseContext)
    (name k : string) (f : SolMetadataParseFlags)
  : bool * SolMetadataParseContext :=
  if negb (xmlStrEqual name k) then (false, self)
  else (true, mkContext (Z.lxor (flags self) f) (metadata self)).

(** The loop of [sol_sax_flip_states] over [meta_mapping], from the entry
    the list starts with. *)
Fixpoint flip_mapping (self : SolMetadataParseContext) (name : string)
    (mapping : list MetaMap) : SolMetadataParseContext :=
  match mapping with
  | [] => self
  | m :: rest =>
      match key m with
      | None => self
      | Some k =>
          let (hit, self') := sol_sax_flip_state self name k (flag m) in
          if hit then self' else flip_mapping self' name rest
      end
  end.

Definition sol_sax_flip_states (self : SolMetadataParseContext)
    (name : string) : SolMetadataParseContext :=
  let (hit, self1) := sol_sax_flip_state self name "PISI" MDATA_ROOT in
  if hit then self1
  else
    let (hit', self2) := sol_sax_flip_state self1 name "SOL" MDATA_ROOT in
    if hit' then self2
    else if negb (sol_sax_in_root self2) then self2
    else flip_mapping self2 name meta_mapping.

Definition sol_sax_start_element (udata : SolMetadataParseContext)
    (name : string) (attrs : list string) : SolMetadataParseContext :=
  sol_sax_flip_states udata name.

Definition sol_sax_end_element (udata : SolMetadataParseContext)
    (name : string) : SolMetadataParseContext :=
  sol_sax_flip_states udata name.

Definition sol_sax_characters (udata : SolMetadataParseContext)
    (ch : string) (len : Z) : SolMetadataParseContext :=
  let self := udata in
  if flags self =? Z.lor (Z.lor MDATA_ROOT MDATA_PACKAGE) MDATA_NAME then
    mkContext (flags self)
      (mkSolMetadata (Some (strndup ch (size_t_of_int len)))
         (component (metadata self)))
  else if negb (Z.land (flags self) MDATA_COMPONENT =? 0) then
    mkContext (flags self)
      (mkSolMetadata (package_name (metadata self))
         (Some (strndup ch (size_t_of_int len))))
  else self.

(** ** The record and its accessors *)

Definition sol_metadata_clean (self : SolMetadata) : SolMetadata :=
  mkSolMetadata None None.

(** [calloc] zeroes the record: both fields are NULL. *)
Definition sol_metadata_new : SolMetadata := mkSolMetadata None None.

Definition sol_metadata_get_package_name (meta : SolMetadata)
  : option string := package_name meta.

Definition sol_metadata_get_component (meta : SolMetadata)
  : option string := component meta.

(** ** The tokenizer and [sol_metadata_load] *)

(** What libxml2 delivers to a SAX handler.  A character event carries the
    [len] bytes the callback is handed. *)
Inductive sax_event : Type :=
| StartElement (name : string) (attrs : list string)
| EndElement (name : string)
| Characters (text : string).

(** [xmlSAXHandler], restricted to the three callbacks the file installs. *)
Record xmlSAXHandler (U : Type) : Type := mkHandler {
  startElement : U -> string -> list string -> U;
  endElement : U -> string -> U;
  characters : U -> string -> Z -> U
}.
Arguments mkHandler {U}.
Arguments startElement {U}.
Arguments endElement {U}.
Arguments characters {U}.

(** A parser context ready to run: the events libxml2 will deliver for the
    file, in order, and the [wellFormed] verdict it ends with. *)
Record xmlParserCtxt : Type := mkCtxt {
  events : list sax_event;
  wellFormed : bool
}.

Definition deliver {U : Type} (sax : xmlSAXHandler U) (udata : U)
    (e : sax_event) : U :=
  match e with
  | StartElement name attrs => startElement sax udata name attrs
  | EndElement name => endElement sax udata name
  | Characters text =>
      characters sax udata text (Z.of_nat (String.length text))
  end.

(** [xmlParseDocument]: every event goes to the installed handler with the
    user data. *)
Definition xmlParseDocument {U : Type} (ctx : xmlParserCtxt)
    (sax : xmlSAXHandler U) (userData : U) : U :=
  fold_left (deliver sax) (events ctx) userData.

Definition handler : xmlSAXHandler SolMetadataParseContext :=
  mkHandler sol_sax_start_element sol_sax_end_element sol_sax_characters.

Section Loader.

(** [xmlCreateFileParserCtxt]: [None] is the NULL context. *)
Variable xmlCreateFileParserCtxt : string -> option xmlParserCtxt.

Definition sol_metadata_load (meta : SolMetadata) (filename : string)
  : bool * SolMetadata :=
  let instance := mkContext 0 meta in
  match xmlCreateFileParserCtxt filename with
  | None => (false, meta)
  | Some ctx =>
      let instance' := xmlParseDocument ctx handler instance in
      let good := wellFormed ctx in
      let meta' := metadata instance' in
      if negb good then (good, sol_metadata_clean meta')
      else (good, meta')
  end.

End Loader.

(** ** Vocabulary of the specification *)

(** The named states of the active-state set, one per recognised element
    name (the two root spellings share [ROOT]). *)
Inductive mdata_state : Type :=
| ROOT | PACKAGE | HISTORY | SOURCE | NAME | COMPONENT | PACKAGER | EMAIL.

Definition all_states : list mdata_state :=
  [ROOT; PACKAGE; HISTORY; SOURCE; NAME; COMPONENT; PACKAGER; EMAIL].

Definition mask_of (s : mdata_state) : SolMetadataParseFlags :=
  match s with
  | ROOT => MDATA_ROOT
  | PACKAGE => MDATA_PACKAGE
  | HISTORY => MDATA_HISTORY
  | SOURCE => MDATA_SOURCE
  | NAME => MDATA_NAME
  | COMPONENT => MDATA_COMPONENT
  | PACKAGER => MDATA_PACKAGER
  | EMAIL => MDATA_EMAIL
  end.

(** Bit position of a state in the flag word. *)
Definition bit_of (s : mdata_state) : Z :=
  match s with
  | ROOT => 1 | PACKAGE => 2 | HISTORY => 3 | SOURCE => 4
  | NAME => 5 | COMPONENT => 6 | PACKAGER => 7 | EMAIL => 8
  end.

(** Does an element name belong to a state? *)
Definition is_tag (s : mdata_state) (name : string) : bool :=
  match s with
  | ROOT => String.eqb name "PISI" || String.eqb name "SOL"
  | PACKAGE => String.eqb name "Package"
  | HISTORY => String.eqb name "History"
  | SOURCE => String.eqb name "Source"
  | NAME => String.eqb name "Name"
  | COMPONENT => String.eqb name "PartOf"
  | PACKAGER => String.eqb name "Packager"
  | EMAIL => String.eqb name "Email"
  end.

(** A state is in the active-state set when its bit is set, tested the way
    the code tests a flag. *)
Definition active (fl : SolMetadataParseFlags) (s : mdata_state) : bool :=
  negb (Z.land fl (mask_of s) =? 0).

(** The active-state set, listed in the order of [all_states]. *)
Definition active_set (fl : SolMetadataParseFlags) : list mdata_state :=
  filter (active fl) all_states.

(** The bits the eight states occupy. *)
Definition known_mask : Z := 510.

(** Text the tokenizer can hand to the character callback: no NUL byte and
    a length that fits the callback's [int]. *)
Fixpoint nul_free (s : string) : bool :=
  match s with
  | EmptyString => true
  | String c s' => negb (Ascii.eqb c Ascii.zero) && nul_free s'
  end.

Definition char_data (text : string) : bool :=
  nul_free text && (Z.of_nat (String.length text) <? 2 ^ 31).

(** The element name of a tag event. *)
Definition tag_name (e : sax_event) : option string :=
  match e with
  | StartElement name _ => Some name
  | EndElement name => Some name
  | Characters _ => None
  end.

(** The parse of [sol_metadata_load] on the events of its context. *)
Definition run (evs : list sax_event) (inst : SolMetadataParseContext)
  : SolMetadataParseContext :=
  fold_left (deliver handler) evs inst.

(** The flag word after one more tag event. *)
Definition next_flags (fl : SolMetadataParseFlags) (name : string)
  : SolMetadataParseFlags :=
  flags (sol_sax_flip_states (mkContext fl sol_metadata_new) name).

Definition mdata_state_eq_dec (a b : mdata_state) : {a = b} + {a <> b}.
Proof. decide equality. Defined.

(** The two output fields and the rule of the specification that picks the
    one a character event writes, read off the active-state set. *)
Inductive field : Type := PackageName | Component.

Definition field_eqb (a b : field) : bool :=
  match a, b with
  | PackageName, PackageName | Component, Component => true
  | _, _ => false
  end.

Definition target (fl : SolMetadataParseFlags) : option field :=
  if list_eq_dec mdata_state_eq_dec (active_set fl) [ROOT; PACKAGE; NAME]
  then Some PackageName
  else if active fl COMPONENT then Some Component
  else None.

Definition get_field (f : field) (meta : SolMetadata) : option string :=
  match f with
  | PackageName => sol_metadata_get_package_name meta
  | Component => sol_metadata_get_component meta
  end.

(** The texts of the character events of [evs] that the rule sends to
    field [f], in order of arrival; [fl] is the flag word before [evs]. *)
Fixpoint matching_texts (f : field) (fl : SolMetadataParseFlags)
    (evs : list sax_event) : list string :=
  match evs with
  | [] => []
  | Characters text :: rest =>
      match target fl with
      | Some g =>
          if field_eqb f g then text :: matching_texts f fl rest
          else matching_texts f fl rest
      | None => matching_texts f fl rest
      end
  | StartElement name _ :: rest => matching_texts f (next_flags fl name) rest
  | EndElement name :: rest => matching_texts f (next_flags fl name) rest
  end.

(** Last element of a list of texts, as a field value. *)
Definition last_text (texts : list string) (before : option string)
  : option string :=
  match texts with
  | [] => before
  | _ => Some (last texts EmptyString)
  end.

(** The string the character callback stores for an event carrying
    [text]. *)
Definition copied (text : string) : string :=
  strndup text (size_t_of_int (Z.of_nat (String.length text))).

Definition all_char_data (evs : list sax_event) : bool :=
  forallb (fun e => match e with
                    | Characters text => char_data text
                    | _ => true
                    end) evs.

(** The state an element name stands for, if it is a recognised name. *)
Definition state_of_name (name : string) : option mdata_state :=
  find (fun s => is_tag s name) all_states.

(** Is [e] an open or close event for the element name of state [s]? *)
Definition toggles (s : mdata_state) (e : sax_event) : bool :=
  match tag_name e with
  | Some name => is_tag s name
  | None => false
  end.

(** Open/close events for the name of [s] among [evs]. *)
Definition seen (s : mdata_state) (evs : list sax_event) : nat :=
  List.length (filter (toggles s) evs).

(** Open/close events for the name of [s] that arrive while an odd number
    of root events came before them; [in_root] is that parity before
    [evs]. *)
Fixpoint seen_in_root (s : mdata_state) (in_root : bool)
    (evs : list sax_event) : nat :=
  match evs with
  | [] => 0
  | e :: rest =>
      if toggles ROOT e then seen_in_root s (negb in_root) rest
      else ((if in_root && toggles s e then 1 else 0)
            + seen_in_root s in_root rest)%nat
  end.

(** Events counted for a state by the tracker: all of them for the root,
    those inside the root for the others. *)
Definition counted (s : mdata_state) (evs : list sax_event) : nat :=
  match s with
  | ROOT => seen ROOT evs
  | _ => seen_in_root s false evs
  end.

(** Substituting one root spelling for another in the tags of a document. *)
Definition subst_name (from to name : string) : string :=
  if String.eqb name from then to else name.

Definition subst_root (from to : string) (e : sax_event) : sax_event :=
  match e with
  | StartElement name attrs => StartElement (subst_name from to name) attrs
  | EndElement name => EndElement (subst_name from to name)
  | Characters text => Characters text
  end.

(** The events of [<root><Package><Name>X</Name></Package></root>]. *)
Definition package_doc (root x : string) : list sax_event :=
  [ StartElement root []; StartElement "Package" []; StartElement "Name" [];
    Characters x;
    EndElement "Name"; EndElement "Package"; EndElement root ].

(** The events of [<root><PartOf>Y</PartOf></root>]. *)
Definition partof_doc (root y : string) : list sax_event :=
  [ StartElement root []; StartElement "PartOf" []; Characters y;
    EndElement "PartOf"; EndElement root ].

(** The events of [<root><History><PartOf>Z</PartOf></History></root>]. *)
Definition nested_partof_doc (root z : string) : list sax_event :=
  [ StartElement root []; StartElement "History" [];
    StartElement "PartOf" []; Characters z; EndElement "PartOf";
    EndElement "History"; EndElement root ].

(** The events of [<root><Name>X</Name></root>]. *)
Definition bare_name_doc (root x : string) : list sax_event :=
  [ StartElement root []; StartElement "Name" []; Characters x;
    EndElement "Name"; EndElement root ].

(** A small file system for the examples: two well-formed documents, the
    first with the other root spelling as well, and a truncated one whose
    name was already delivered when the tokenizer gave up. *)
Definition sample_files (filename : string) : option xmlParserCtxt :=
  if String.eqb filename "a.xml"
  then Some (mkCtxt (package_doc "SOL" "a") true)
  else if String.eqb filename "a-pisi.xml"
  then Some (mkCtxt (package_doc "PISI" "a") true)
  else if String.eqb filename "b.xml"
  then Some (mkCtxt (partof_doc "SOL" "b") true)
  else if String.eqb filename "truncated.xml"
  then Some (mkCtxt [ StartElement "SOL" []; StartElement "Package" [];
                      StartElement "Name" []; Characters "a";
                      EndElement "Name" ] false)
  else None.

(** ** Well-nested event streams and the stack of open elements *)

(** Event streams in which every element that opens is closed by a tag of
    the same name, elements being properly nested. *)
Inductive well_nested : list sax_event -> Prop :=
| wn_nil : well_nested []
| wn_chars (text : string) (rest : list sax_event) :
    well_nested rest -> well_nested (Characters text :: rest)
| wn_elem (name : string) (attrs : list string)
    (inner rest : list sax_event) :
    well_nested inner -> well_nested rest ->
    well_nested (StartElement name attrs :: inner ++ EndElement name :: rest).

(** May an element called [name] open inside the open elements [st]
    (innermost first) under the fixed schema?  The outermost element is a
    root, and no recognised element opens inside an element of its own
    state. *)
Definition fits_schema (name : string) (st : list string) : bool :=
  match st with
  | [] => is_tag ROOT name
  | _ =>
      match state_of_name name with
      | None => true
      | Some s => negb (existsb (is_tag s) st)
      end
  end.

(** The open elements after [evs], innermost first, starting from [st];
    [None] when a closing tag does not match the innermost open element or
    an opening tag does not fit the schema. *)
Fixpoint open_elements (st : list string) (evs : list sax_event)
  : option (list string) :=
  match evs with
  | [] => Some st
  | Characters _ :: rest => open_elements st rest
  | StartElement name _ :: rest =>
      if fits_schema name st then open_elements (name :: st) rest else None
  | EndElement name :: rest =>
      match st with
      | top :: st' =>
          if String.eqb name top then open_elements st' rest else None
      | [] => None
      end
  end.

Fixpoint schema_ok (st : list string) : bool :=
  match st with
  | [] => true
  | name :: st' => fits_schema name st' && schema_ok st'
  end.

(** The states of the open elements [st], in the order of [all_states]. *)
Definition states_open (st : list string) : list mdata_state :=
  filter (fun s => existsb (is_tag s) st) all_states.

(** Two events that the callbacks cannot tell apart: tags of the same kind
    whose names stand for the same state (or both for none), or character
    events with the same text. *)
Definition same_kind (e e' : sax_event) : Prop :=
  match e, e' with
  | StartElement n _, StartElement n' _ => state_of_name n = state_of_name n'
  | EndElement n, EndElement n' => state_of_name n = state_of_name n'
  | Characters t, Characters t' => t = t'
  | _, _ => False
  end.

(** Does a tag event carry one of the two root spellings? *)
Definition has_root_tag (evs : list sax_event) : bool :=
  existsb (toggles ROOT) evs.

(** The tag events of a stream, in order. *)
Definition tags_only (evs : list sax_event) : list sax_event :=
  filter (fun e => match tag_name e with Some _ => true | None => false end)
    evs.

(** ** The string blocks behind the record

    The same code with its allocations made explicit: the two fields are
    pointers into a heap of string blocks, [strndup] takes a fresh block
    and [free] releases one.  A block that no field points to any more can
    never be released: neither [sol_metadata_clean] nor the callbacks keep
    another pointer to it. *)

Definition addr : Type := nat.

(** The live blocks with their contents, and the next address the
    allocator hands out. *)
Record heap : Type := mkHeap {
  blocks : list (addr * string);
  brk : addr
}.

(** The allocation of [strndup]: a fresh block holding the copy. *)
Definition alloc (h : heap) (s : string) : addr * heap :=
  (brk h, mkHeap ((brk h, s) :: blocks h) (S (brk h))).

(** [free]: a NULL pointer is accepted and does nothing. *)
Definition free (h : heap) (p : option addr) : heap :=
  match p with
  | None => h
  | Some a =>
      mkHeap (filter (fun b => negb (Nat.eqb (fst b) a)) (blocks h)) (brk h)
  end.

(** The string a field points to. *)
Definition deref (h : heap) (p : option addr) : option string :=
  match p with
  | None => None
  | Some a =>
      option_map snd (find (fun b => Nat.eqb (fst b) a) (blocks h))
  end.

(** [struct SolMetadata] with its fields as pointers. *)
Record SolMetadataRef : Type := mkRef {
  package_name_ref : option addr;
  component_ref : option addr
}.

Record mem : Type := mkMem {
  record : SolMetadataRef;
  store : heap
}.

(** The record as the accessors show it. *)
Definition view (m : mem) : SolMetadata :=
  mkSolMetadata (deref (store m) (package_name_ref (record m)))
    (deref (store m) (component_ref (record m))).

Definition sol_sax_characters_mem (fl : SolMetadataParseFlags) (m : mem)
    (ch : string) (len : Z) : mem :=
  if fl =? Z.lor (Z.lor MDATA_ROOT MDATA_PACKAGE) MDATA_NAME then
    let (p, h) := alloc (store m) (strndup ch (size_t_of_int len)) in
    mkMem (mkRef (Some p) (component_ref (record m))) h
  else if negb (Z.land fl MDATA_COMPONENT =? 0) then
    let (p, h) := alloc (store m) (strndup ch (size_t_of_int len)) in
    mkMem (mkRef (package_name_ref (record m)) (Some p)) h
  else m.

Definition sol_metadata_clean_mem (m : mem) : mem :=
  let h1 := free (store m) (package_name_ref (record m)) in
  let h2 := free h1 (component_ref (record m)) in
  mkMem (mkRef None None) h2.

(** One event on the flag word and the memory; the tag callbacks touch the
    flag word only. *)
Definition deliver_mem (st : SolMetadataParseFlags * mem) (e : sax_event)
  : SolMetadataParseFlags * mem :=
  match e with
  | StartElement name _ => (next_flags (fst st) name, snd st)
  | EndElement name => (next_flags (fst st) name, snd st)
  | Characters text =>
      (fst st,
       sol_sax_characters_mem (fst st) (snd st) text
         (Z.of_nat (String.length text)))
  end.

Definition run_mem (evs : list sax_event) (st : SolMetadataParseFlags * mem)
  : SolMetadataParseFlags * mem :=
  fold_left deliver_mem evs st.

Definition sol_metadata_load_mem
    (xmlCreateFileParserCtxt : string -> option xmlParserCtxt)
    (m : mem) (filename : string) : bool * mem :=
  match xmlCreateFileParserCtxt filename with
  | None => (false, m)
  | Some ctx =>
      let m' := snd (run_mem (events ctx) (0, m)) in
      let good := wellFormed ctx in
      if negb good then (good, sol_metadata_clean_mem m')
      else (good, m')
  end.

(** Writing field [f]: what [sol_sax_characters_mem] does in either of its
    two branches. *)
Definition write_field (f : field) (m : mem) (s : string) : mem :=
  let (p, h) := alloc (store m) s in
  match f with
  | PackageName => mkMem (mkRef (Some p) (component_ref (record m))) h
  | Component => mkMem (mkRef (package_name_ref (record m)) (Some p)) h
  end.

(** Is [a] the address held in the pointer [p]? *)
Definition hit (p : option addr) (a : addr) : bool :=
  match p with
  | Some x => Nat.eqb a x
  | None => false
  end.

(** Does a field of the record point to [a]? *)
Definition points_to (r : SolMetadataRef) (a : addr) : bool :=
  match package_name_ref r with
  | Some p => Nat.eqb a p
  | None => false
  end
  || match component_ref r with
     | Some c => Nat.eqb a c
     | None => false
     end.

(** The blocks still allocated that no field points to. *)
Definition leaked (m : mem) : list (addr * string) :=
  filter (fun b => negb (points_to (record m) (fst b))) (blocks (store m)).

Definition ref_of (f : field) (r : SolMetadataRef) : option addr :=
  match f with
  | PackageName => package_name_ref r
  | Component => component_ref r
  end.

(** A memory the code can be in: block addresses are distinct and below
    the allocator's mark, and the fields point to distinct live blocks. *)
Definition mem_ok (m : mem) : Prop :=
  NoDup (map fst (blocks (store m)))
  /\ (forall a, In a (map fst (blocks (store m))) -> (a < brk (store m))%nat)
  /\ (forall f a, ref_of f (record m) = Some a ->
                  In a (map fst (blocks (store m))))
  /\ (forall a, package_name_ref (record m) = Some a ->
                component_ref (record m) <> Some a).

(** The blocks a parse leaves behind for field [f] when [n] character
    events matched it: every block it took but the last, and the block the
    field held before if it held one. *)
Definition lost (before : option addr) (n : nat) : nat :=
  match n with
  | O => 0
  | S k => (k + match before with Some _ => 1 | None => 0 end)%nat
  end.

(** ** The table of names *)

(** Does an entry of the table carry the element name [name]? *)
Definition name_matches (name : string) (m : MetaMap) : bool :=
  match key m with
  | Some k => String.eqb name k
  | None => false
  end.

(** The entries of [meta_mapping] before its terminator. *)
Definition real_entries : list MetaMap := removelast meta_mapping.

(** ** Documents around the package name *)

(** The flag word after the tag events of [evs], from [fl]. *)
Fixpoint flags_after (fl : SolMetadataParseFlags) (evs : list sax_event)
  : SolMetadataParseFlags :=
  match evs with
  | [] => fl
  | e :: rest =>
      match tag_name e with
      | Some name => flags_after (next_flags fl name) rest
      | None => flags_after fl rest
      end
  end.

(** No tag of [evs] carries a name of one of the states [ss]. *)
Definition avoids (ss : list mdata_state) (evs : list sax_event) : bool :=
  forallb (fun e => negb (existsb (fun s => toggles s e) ss)) evs.

(** The events of
    [<root> before <Package> inside_before <Name>X</Name> inside_after
     </Package> after </root>],
    the text X arriving as the character events [chunks] (none when X is
    empty, several when the tokenizer splits it). *)
Definition package_doc_around (root : string)
    (before inside_before : list sax_event) (chunks : list string)
    (inside_after after : list sax_event) : list sax_event :=
  (StartElement root [] :: before)
  ++ (StartElement "Package" [] :: inside_before)
  ++ (StartElement "Name" [] :: map Characters chunks)
  ++ (EndElement "Name" :: inside_after)
  ++ (EndElement "Package" :: after)
  ++ [EndElement root].

(** Two documents of the form [<PISI><Package><Name>X</Name></Package></PISI>]
    as the tokenizer delivers them: X empty, for which no character event
    arrives, and X = [a&amp;b], which arrives in three pieces. *)
Definition edge_files (filename : string) : option xmlParserCtxt :=
  if String.eqb filename "empty-name.xml"
  then Some (mkCtxt (package_doc_around "PISI" [] [] [] [] []) true)
  else if String.eqb filename "entity-name.xml"
  then Some (mkCtxt (package_doc_around "PISI" [] [] ["a"; "&"; "b"] [] [])
               true)
  else None.

(** ** Documents as the tokenizer reads them *)

(** Modelled from the spec: the tokenizer, an external library that is not
    part of the sources.  A document is the sequence of its tags and
    texts; the verdict is the well-formedness of the glossary (tags
    balanced and properly nested), and each tag and text is handed over as
    one event. *)
Inductive token : Type :=
| OpenTag (name : string)
| CloseTag (name : string)
| TextRun (text : string).

Fixpoint tags_balanced (open : list string) (doc : list token) : bool :=
  match doc with
  | [] => match open with [] => true | _ => false end
  | OpenTag name :: rest => tags_balanced (name :: open) rest
  | CloseTag name :: rest =>
      match open with
      | top :: open' => String.eqb name top && tags_balanced open' rest
      | [] => false
      end
  | TextRun _ :: rest => tags_balanced open rest
  end.

Definition event_of (t : token) : sax_event :=
  match t with
  | OpenTag name => StartElement name []
  | CloseTag name => EndElement name
  | TextRun text => Characters text
  end.

Definition tokenize (doc : list token) : xmlParserCtxt :=
  mkCtxt (map event_of doc) (tags_balanced [] doc).

Definition subst_token (from to : string) (t : token) : token :=
  match t with
  | OpenTag name => OpenTag (subst_name from to name)
  | CloseTag name => CloseTag (subst_name from to name)
  | TextRun text => TextRun text
  end.

(** [<PISI><PartOf>x</PartOf></SOL>]: the root opens under one spelling
    and closes under the other. *)
Definition mixed_doc : list token :=
  [ OpenTag "PISI"; OpenTag "PartOf"; TextRun "x"; CloseTag "PartOf";
    CloseTag "SOL" ].

(** [mixed_doc] and the document it becomes when SOL is put for PISI. *)
Definition mixed_files (filename : string) : option xmlParserCtxt :=
  if String.eqb filename "mixed.xml"
  then Some (tokenize mixed_doc)
  else if String.eqb filename "mixed-sol.xml"
  then Some (tokenize (map (subst_token "PISI" "SOL") mixed_doc))
  else None.

(** One step of symbolic execution of the tag callback. *)
Ltac flip_step :=
  cbn -[Z.land Z.lxor Z.eqb String.eqb];
  unfold sol_sax_flip_state, xmlStrEqual;
  cbn -[Z.land Z.lxor Z.eqb String.eqb].

(** ** Bit-level facts about the flag word *)

Lemma mask_of_pow2 (s : mdata_state) : mask_of s = 2 ^ bit_of s.
Proof. destruct s; reflexivity. Qed.

Lemma bit_of_range (s : mdata_state) : 1 <= bit_of s <= 8.
Proof. destruct s; simpl; lia. Qed.

Lemma bit_of_inj (s t : mdata_state) : bit_of s = bit_of t -> s = t.
Proof. destruct s, t; simpl; intros H; try reflexivity; discriminate H. Qed.

Lemma land_pow2 (a i : Z) :
  0 <= i -> Z.land a (2 ^ i) = if Z.testbit a i then 2 ^ i else 0.
Proof.
  intros Hi. apply Z.bits_inj'. intros n Hn.
  rewrite Z.land_spec, Z.pow2_bits_eqb by assumption.
  destruct (Z.eqb_spec i n) as [->|Hne].
  - destruct (Z.testbit a n) eqn:E; simpl.
    + symmetry. apply Z.pow2_bits_true. assumption.
    + symmetry. apply Z.bits_0.
  - rewrite andb_false_r.
    destruct (Z.testbit a i).
    + symmetry. apply Z.pow2_bits_false. assumption.
    + symmetry. apply Z.bits_0.
Qed.

Lemma active_testbit (fl : Z) (s : mdata_state) :
  active fl s = Z.testbit fl (bit_of s).
Proof.
  unfold active. rewrite mask_of_pow2.
  pose proof (bit_of_range s) as Hr.
  rewrite land_pow2 by lia.
  destruct (Z.testbit fl (bit_of s)).
  - assert (0 < 2 ^ bit_of s) by (apply Z.pow_pos_nonneg; lia).
    destruct (Z.eqb_spec (2 ^ bit_of s) 0); [lia | reflexivity].
  - reflexivity.
Qed.

Lemma active_lxor (fl : Z) (s t : mdata_state) :
  active (Z.lxor fl (mask_of t)) s
  = xorb (active fl s) (if mdata_state_eq_dec s t then true else false).
Proof.
  rewrite !active_testbit, Z.lxor_spec, mask_of_pow2.
  pose proof (bit_of_range t) as Hr.
  rewrite Z.pow2_bits_eqb by lia.
  destruct (mdata_state_eq_dec s t) as [->|Hne].
  - rewrite Z.eqb_refl. reflexivity.
  - destruct (Z.eqb_spec (bit_of t) (bit_of s)) as [E|E].
    + exfalso. apply Hne. symmetry. apply bit_of_inj. exact E.
    + reflexivity.
Qed.

Lemma known_lxor (fl : Z) (s : mdata_state) :
  Z.land fl known_mask = fl ->
  Z.land (Z.lxor fl (mask_of s)) known_mask = Z.lxor fl (mask_of s).
Proof.
  intros H. apply Z.bits_inj'. intros n Hn.
  rewrite Z.land_spec, !Z.lxor_spec.
  destruct (Z.testbit known_mask n) eqn:K; [apply andb_true_r|].
  assert (Hfl : Z.testbit fl n = false).
  { rewrite <- H, Z.land_spec, K. apply andb_false_r. }
  assert (Hs : Z.testbit (mask_of s) n = false).
  { assert (Hm : Z.land (mask_of s) known_mask = mask_of s)
      by (destruct s; reflexivity).
    rewrite <- Hm, Z.land_spec, K. apply andb_false_r. }
  rewrite Hfl, Hs. reflexivity.
Qed.

(** Bits of a flag word outside the eight states are clear. *)
Lemma known_bits (fl n : Z) :
  Z.land fl known_mask = fl -> (n <= 0 \/ 9 <= n) -> Z.testbit fl n = false.
Proof.
  intros H Hn.
  rewrite <- H, Z.land_spec.
  assert (Z.testbit known_mask n = false) as ->; [| apply andb_false_r].
  destruct Hn as [Hn|Hn].
  - destruct (Z.eq_dec n 0) as [->|]; [reflexivity|].
    apply Z.testbit_neg_r. lia.
  - apply Z.bits_above_log2; [unfold known_mask; lia|].
    change (Z.log2 known_mask) with 8. lia.
Qed.

(** For a flag word made of state bits, the integer comparison of the
    character callback is the set comparison of the specification. *)
Lemma exact_set_iff (fl : Z) :
  Z.land fl known_mask = fl ->
  (active_set fl = [ROOT; PACKAGE; NAME]
   <-> fl = Z.lor (Z.lor MDATA_ROOT MDATA_PACKAGE) MDATA_NAME).
Proof.
  intros Hk. split.
  - intros Hset.
    assert (Hact : forall s, active fl s = true <-> In s [ROOT; PACKAGE; NAME]).
    { intros s. rewrite <- Hset. unfold active_set. rewrite filter_In.
      split; [intros H; split; [destruct s; simpl; tauto | exact H] | tauto]. }
    assert (Hb : forall s, Z.testbit fl (bit_of s)
                           = match s with
                             | ROOT | PACKAGE | NAME => true
                             | _ => false
                             end).
    { intros s. rewrite <- active_testbit.
      destruct (active fl s) eqn:E.
      - apply Hact in E. simpl in E.
        destruct s; try reflexivity; exfalso; intuition discriminate.
      - destruct s; try reflexivity; exfalso;
          match goal with
          | E : active fl ?t = false |- _ =>
              assert (active fl t = true) by (apply Hact; simpl; tauto);
              congruence
          end. }
    apply Z.bits_inj'. intros n Hn.
    assert (Hc : n = 0 \/ (exists s, n = bit_of s) \/ 9 <= n).
    { assert (Hd : n = 0 \/ n = 1 \/ n = 2 \/ n = 3 \/ n = 4 \/ n = 5
                   \/ n = 6 \/ n = 7 \/ n = 8 \/ 9 <= n) by lia.
      destruct Hd as [->|[->|[->|[->|[->|[->|[->|[->|[->|Hhi]]]]]]]]];
        [ left; reflexivity
        | right; left; exists ROOT; reflexivity
        | right; left; exists PACKAGE; reflexivity
        | right; left; exists HISTORY; reflexivity
        | right; left; exists SOURCE; reflexivity
        | right; left; exists NAME; reflexivity
        | right; left; exists COMPONENT; reflexivity
        | right; left; exists PACKAGER; reflexivity
        | right; left; exists EMAIL; reflexivity
        | right; right; exact Hhi ]. }
    destruct Hc as [->|[[s ->]|Hhi]].
    + rewrite (known_bits fl 0 Hk) by lia. reflexivity.
    + rewrite Hb. destruct s; reflexivity.
    + rewrite (known_bits fl n Hk) by lia.
      symmetry. apply Z.bits_above_log2; [vm_compute; discriminate|].
      change (Z.log2 (Z.lor (Z.lor MDATA_ROOT MDATA_PACKAGE) MDATA_NAME))
        with 5. lia.
  - intros ->. reflexivity.
Qed.

(** ** The tag tracker *)

(** What one tag event does to the context: the flag of the name's state is
    toggled, for a non-root state only when the root flag is set; the
    record is not touched. *)
Lemma flip_states_spec (self : SolMetadataParseContext) (name : string) :
  sol_sax_flip_states self name
  = mkContext
      match state_of_name name with
      | Some ROOT => Z.lxor (flags self) (mask_of ROOT)
      | Some s =>
          if active (flags self) ROOT then Z.lxor (flags self) (mask_of s)
          else flags self
      | None => flags self
      end
      (metadata self).
Proof.
  destruct self as [fl m].
  unfold sol_sax_flip_states, sol_sax_flip_state, xmlStrEqual, state_of_name,
    sol_sax_in_root, active, meta_mapping, all_states.
  flip_step.
  destruct (String.eqb name "PISI") eqn:E1; flip_step; [reflexivity|].
  destruct (String.eqb name "SOL") eqn:E2; flip_step; [reflexivity|].
  destruct (Z.land fl 2 =? 0) eqn:ER; flip_step;
    (destruct (String.eqb name "Package"); flip_step; [reflexivity|]);
    (destruct (String.eqb name "History"); flip_step; [reflexivity|]);
    (destruct (String.eqb name "Source"); flip_step; [reflexivity|]);
    (destruct (String.eqb name "Name"); flip_step; [reflexivity|]);
    (destruct (String.eqb name "PartOf"); flip_step; [reflexivity|]);
    (destruct (String.eqb name "Packager"); flip_step; [reflexivity|]);
    (destruct (String.eqb name "Email"); flip_step; reflexivity).
Qed.

Lemma flip_states_metadata (self : SolMetadataParseContext) (name : string) :
  metadata (sol_sax_flip_states self name) = metadata self.
Proof. rewrite flip_states_spec. reflexivity. Qed.

Lemma flip_states_flags (fl : Z) (m : SolMetadata) (name : string) :
  flags (sol_sax_flip_states (mkContext fl m) name) = next_flags fl name.
Proof. unfold next_flags. rewrite !flip_states_spec. reflexivity. Qed.

Lemma next_flags_known (fl : Z) (name : string) :
  Z.land fl known_mask = fl ->
  Z.land (next_flags fl name) known_mask = next_flags fl name.
Proof.
  intros H. unfold next_flags. rewrite flip_states_spec. cbn [flags].
  destruct (state_of_name name) as [s|]; [|exact H].
  destruct s; try (apply known_lxor; exact H);
    destruct (active fl ROOT); try exact H; apply known_lxor; exact H.
Qed.

Lemma characters_flags (self : SolMetadataParseContext) (ch : string)
    (len : Z) :
  flags (sol_sax_characters self ch len) = flags self.
Proof.
  unfold sol_sax_characters.
  destruct (flags self =? _); [reflexivity|].
  destruct (negb _); reflexivity.
Qed.

(** One event, seen from the flag word. *)
Lemma deliver_flags (inst : SolMetadataParseContext) (e : sax_event) :
  flags (deliver handler inst e)
  = match tag_name e with
    | Some name => next_flags (flags inst) name
    | None => flags inst
    end.
Proof.
  destruct inst as [fl m], e as [name attrs|name|text]; simpl.
  - apply flip_states_flags.
  - apply flip_states_flags.
  - apply characters_flags.
Qed.

Lemma run_app (evs1 evs2 : list sax_event) (inst : SolMetadataParseContext) :
  run (evs1 ++ evs2) inst = run evs2 (run evs1 inst).
Proof. apply fold_left_app. Qed.

Lemma run_known (evs : list sax_event) (inst : SolMetadataParseContext) :
  Z.land (flags inst) known_mask = flags inst ->
  Z.land (flags (run evs inst)) known_mask = flags (run evs inst).
Proof.
  revert inst. induction evs as [|e evs IH]; intros inst H; [exact H|].
  simpl. apply IH. rewrite deliver_flags.
  destruct (tag_name e); [apply next_flags_known|]; exact H.
Qed.

(** The element names of distinct states are distinct. *)
Lemma is_tag_state_of_name (s : mdata_state) (name : string) :
  is_tag s name = true -> state_of_name name = Some s.
Proof.
  destruct s; simpl; intros H;
    try (apply String.eqb_eq in H; subst name; reflexivity).
  apply orb_true_iff in H.
  destruct H as [H|H]; apply String.eqb_eq in H; subst name; reflexivity.
Qed.

Lemma is_tag_spec (s : mdata_state) (name : string) :
  is_tag s name
  = match state_of_name name with
    | Some t => if mdata_state_eq_dec s t then true else false
    | None => false
    end.
Proof.
  destruct (is_tag s name) eqn:E.
  - rewrite (is_tag_state_of_name s name E).
    destruct (mdata_state_eq_dec s s); congruence.
  - destruct (state_of_name name) as [t|] eqn:F; [|reflexivity].
    destruct (mdata_state_eq_dec s t) as [->|]; [|reflexivity].
    apply find_some in F. destruct F as [_ F]. congruence.
Qed.

Lemma next_flags_spec (fl : Z) (name : string) :
  next_flags fl name
  = match state_of_name name with
    | Some ROOT => Z.lxor fl (mask_of ROOT)
    | Some s => if active fl ROOT then Z.lxor fl (mask_of s) else fl
    | None => fl
    end.
Proof. unfold next_flags. rewrite flip_states_spec. reflexivity. Qed.

(** Effect of one tag event on membership of a state. *)
Lemma active_next_flags (fl : Z) (name : string) (s : mdata_state) :
  active (next_flags fl name) s
  = xorb (active fl s)
      (is_tag s name
       && match s with ROOT => true | _ => active fl ROOT end).
Proof.
  rewrite next_flags_spec, is_tag_spec.
  destruct (state_of_name name) as [t|]; [|symmetry; apply xorb_false_r].
  assert (Hroot : t = ROOT \/ t <> ROOT)
    by (destruct t; (left; reflexivity) || (right; discriminate)).
  destruct Hroot as [->|Hne].
  - rewrite active_lxor.
    destruct (mdata_state_eq_dec s ROOT) as [->|]; [reflexivity|].
    reflexivity.
  - assert (Hstep : active
                      match t with
                      | ROOT => Z.lxor fl (mask_of ROOT)
                      | _ => if active fl ROOT then Z.lxor fl (mask_of t)
                             else fl
                      end s
                    = xorb (active fl s)
                        (active fl ROOT
                         && if mdata_state_eq_dec s t then true else false)).
    { destruct t; try congruence;
        (destruct (active fl ROOT);
         [rewrite active_lxor; reflexivity
         | symmetry; apply xorb_false_r]). }
    rewrite Hstep. f_equal.
    destruct (mdata_state_eq_dec s t) as [->|];
      [| rewrite andb_false_r; reflexivity].
    destruct t; try congruence; apply andb_true_r.
Qed.

Lemma is_tag_root_excl (s : mdata_state) (name : string) :
  s <> ROOT -> is_tag ROOT name = true -> is_tag s name = false.
Proof.
  intros Hs Hr. rewrite is_tag_spec, (is_tag_state_of_name _ _ Hr).
  destruct (mdata_state_eq_dec s ROOT); congruence.
Qed.

(** The boolean content of one step of the invariant: [a] and [r] are the
    memberships of the state and of the root before the event, [ts] and
    [tr] tell whether the event is a tag of the state or of the root. *)
Lemma parity_step (a r tr ts : bool) (f : bool -> nat) :
  (tr = true -> ts = false) ->
  xorb (xorb a (ts && r)) (Nat.odd (f (xorb r (tr && true))))
  = xorb a (Nat.odd (if tr then f (negb r)
                     else ((if r && ts then 1 else 0) + f r)%nat)).
Proof.
  intros H. destruct tr.
  - rewrite H by reflexivity. cbn [andb].
    rewrite xorb_false_r, xorb_true_r. reflexivity.
  - cbn [andb]. rewrite xorb_false_r.
    destruct r, ts; cbn [andb Nat.add]; rewrite ?xorb_false_r;
      try reflexivity.
    rewrite Nat.odd_succ, <- Nat.negb_odd.
    destruct a, (Nat.odd (f true)); reflexivity.
Qed.

(** The tracker's invariant, from any starting context. *)
Lemma run_parity (evs : list sax_event) :
  forall (inst : SolMetadataParseContext) (s : mdata_state),
    active (flags (run evs inst)) s
    = xorb (active (flags inst) s)
        (Nat.odd match s with
                 | ROOT => seen ROOT evs
                 | _ => seen_in_root s (active (flags inst) ROOT) evs
                 end).
Proof.
  induction evs as [|e evs IH]; intros inst s.
  - simpl. destruct s; symmetry; apply xorb_false_r.
  - change (run (e :: evs) inst) with (run evs (deliver handler inst e)).
    rewrite IH, !deliver_flags.
    unfold seen. cbn [filter seen_in_root]. unfold toggles.
    destruct (tag_name e) as [name|].
    + cbn iota. rewrite !active_next_flags.
      destruct s; cbn iota;
        try (apply (parity_step _ _ _ _ (fun r => seen_in_root _ r evs));
             apply is_tag_root_excl; discriminate).
      rewrite andb_true_r.
      destruct (is_tag ROOT name); cbn [List.length];
        rewrite ?xorb_false_r; [|reflexivity].
      rewrite Nat.odd_succ, <- Nat.negb_odd.
      destruct (active (flags inst) ROOT), (Nat.odd _); reflexivity.
    + destruct s; cbn iota; rewrite ?andb_false_r; reflexivity.
Qed.

(** ** The extractor *)

Lemma strndup_all (s : string) :
  forall n : Z,
    nul_free s = true -> Z.of_nat (String.length s) <= n -> strndup s n = s.
Proof.
  induction s as [|c s IH]; intros n Hnul Hlen; [reflexivity|].
  cbn [strndup]. cbn [nul_free] in Hnul. cbn [String.length] in Hlen.
  apply andb_true_iff in Hnul. destruct Hnul as [Hc Hs].
  destruct (Z.leb_spec n 0) as [Hle|Hgt]; [lia|].
  destruct (Ascii.eqb c zero); [discriminate Hc|].
  rewrite IH; [reflexivity | exact Hs | lia].
Qed.

(** Character data is stored as it is. *)
Lemma copied_char_data (text : string) :
  char_data text = true -> copied text = text.
Proof.
  unfold char_data, copied, size_t_of_int. intros H.
  apply andb_true_iff in H. destruct H as [Hnul Hlen].
  apply Z.ltb_lt in Hlen.
  rewrite Z.mod_small by lia.
  apply strndup_all; [exact Hnul | lia].
Qed.

(** The character callback follows the rule of the specification on every
    flag word made of state bits. *)
Lemma characters_spec (fl : Z) (m : SolMetadata) (text : string) :
  Z.land fl known_mask = fl ->
  deliver handler (mkContext fl m) (Characters text)
  = match target fl with
    | Some PackageName =>
        mkContext fl (mkSolMetadata (Some (copied text)) (component m))
    | Some Component =>
        mkContext fl (mkSolMetadata (package_name m) (Some (copied text)))
    | None => mkContext fl m
    end.
Proof.
  intros Hk. unfold target.
  cbn [deliver handler characters]. unfold sol_sax_characters.
  cbn [flags metadata]. fold (copied text).
  change (negb (Z.land fl MDATA_COMPONENT =? 0)) with (active fl COMPONENT).
  destruct (list_eq_dec mdata_state_eq_dec (active_set fl)
              [ROOT; PACKAGE; NAME]) as [Heq|Hne].
  - apply (exact_set_iff fl Hk) in Heq. rewrite Heq. reflexivity.
  - destruct (Z.eqb_spec fl (Z.lor (Z.lor MDATA_ROOT MDATA_PACKAGE) MDATA_NAME))
      as [Heq|_].
    + exfalso. apply Hne. apply (exact_set_iff fl Hk). exact Heq.
    + destruct (active fl COMPONENT); reflexivity.
Qed.

Lemma tag_event_metadata (inst : SolMetadataParseContext) (e : sax_event)
    (name : string) :
  tag_name e = Some name ->
  deliver handler inst e = mkContext (next_flags (flags inst) name)
                             (metadata inst).
Proof.
  destruct inst as [fl m].
  destruct e as [n attrs|n|text]; cbn [tag_name]; intros H;
    try discriminate H; injection H as ->;
    unfold deliver, handler, startElement, endElement,
      sol_sax_start_element, sol_sax_end_element;
    rewrite flip_states_spec, next_flags_spec; reflexivity.
Qed.

Lemma last_text_cons (t : string) (texts : list string)
    (before : option string) :
  last_text (t :: texts) before = last_text texts (Some t).
Proof. destruct texts as [|u texts]; reflexivity. Qed.

(** A field after a parse: the copy of the last text the rule sent to it,
    or what it held before when the rule sent none. *)
Lemma run_field (f : field) (evs : list sax_event) :
  forall (fl : Z) (m : SolMetadata),
    Z.land fl known_mask = fl ->
    get_field f (metadata (run evs (mkContext fl m)))
    = last_text (map copied (matching_texts f fl evs)) (get_field f m).
Proof.
  induction evs as [|e evs IH]; intros fl m Hk; [reflexivity|].
  change (run (e :: evs) (mkContext fl m))
    with (run evs (deliver handler (mkContext fl m) e)).
  destruct e as [name attrs|name|text].
  - rewrite (tag_event_metadata _ (StartElement name attrs) name eq_refl).
    cbn [flags metadata matching_texts].
    apply IH. apply next_flags_known. exact Hk.
  - rewrite (tag_event_metadata _ (EndElement name) name eq_refl).
    cbn [flags metadata matching_texts].
    apply IH. apply next_flags_known. exact Hk.
  - rewrite (characters_spec fl m text Hk). cbn [matching_texts].
    destruct (target fl) as [g|]; [|apply IH; exact Hk].
    destruct f, g; cbn [field_eqb map]; rewrite ?last_text_cons;
      rewrite (IH _ _ Hk); reflexivity.
Qed.

Lemma matching_texts_char_data (f : field) (evs : list sax_event) :
  forall fl : Z,
    all_char_data evs = true ->
    map copied (matching_texts f fl evs) = matching_texts f fl evs.
Proof.
  induction evs as [|e evs IH]; intros fl H; [reflexivity|].
  cbn [all_char_data forallb] in H. apply andb_true_iff in H.
  destruct H as [He Hevs]. fold (all_char_data evs) in Hevs.
  destruct e as [name attrs|name|text]; cbn [matching_texts];
    try (apply IH; exact Hevs).
  destruct (target fl) as [g|]; [|apply IH; exact Hevs].
  destruct (field_eqb f g); [|apply IH; exact Hevs].
  cbn [map]. rewrite (copied_char_data text He), (IH fl Hevs). reflexivity.
Qed.

Lemma load_well_formed (xmlCreateFileParserCtxt : string -> option xmlParserCtxt)
    (meta : SolMetadata) (filename : string) (ctx : xmlParserCtxt) :
  xmlCreateFileParserCtxt filename = Some ctx ->
  wellFormed ctx = true ->
  sol_metadata_load xmlCreateFileParserCtxt meta filename
  = (true, metadata (run (events ctx) (mkContext 0 meta))).
Proof.
  intros Hctx Hgood. unfold sol_metadata_load.
  rewrite Hctx, Hgood. reflexivity.
Qed.

Lemma load_fresh_field (xmlCreateFileParserCtxt : string -> option xmlParserCtxt)
    (meta : SolMetadata) (filename : string) (ctx : xmlParserCtxt)
    (f : field) :
  xmlCreateFileParserCtxt filename = Some ctx ->
  wellFormed ctx = true ->
  get_field f (snd (sol_metadata_load xmlCreateFileParserCtxt meta filename))
  = match get_field f (snd (sol_metadata_load xmlCreateFileParserCtxt
                              sol_metadata_new filename)) with
    | Some v => Some v
    | None => get_field f meta
    end.
Proof.
  intros Hctx Hgood.
  rewrite !(load_well_formed _ _ _ _ Hctx Hgood). cbn [snd].
  rewrite !(run_field f (events ctx) 0 _ eq_refl).
  destruct (map copied (matching_texts f 0 (events ctx))) as [|t texts].
  - destruct f; reflexivity.
  - reflexivity.
Qed.

(** ** Loading a document *)

(** C1, as stated, fails: [sol_metadata_load] never resets the record on
    its way in.  After loading [a.xml] (which names the package) and then
    the well-formed [b.xml], none of whose events writes the package name,
    the package name of [a.xml] is still there. *)
Lemma reload_keeps_residue :
  let m1 := snd (sol_metadata_load sample_files sol_metadata_new "a.xml") in
  let r2 := sol_metadata_load sample_files m1 "b.xml" in
  matching_texts PackageName 0 (partof_doc "SOL" "b") = []
  /\ fst r2 = true
  /\ sol_metadata_get_package_name (snd r2) = Some "a"
  /\ sol_metadata_get_package_name (snd r2) <> None.
Proof. repeat split; try reflexivity. discriminate. Qed.

(** C1, amended: a successful load leaves a field that no event of the
    document writes at the value it held before the call, and gives a field
    the document does write the value a fresh record would get. *)
Theorem load_keeps_unset_fields
    (xmlCreateFileParserCtxt : string -> option xmlParserCtxt)
    (meta : SolMetadata) (filename : string) (ctx : xmlParserCtxt)
    (f : field) :
  xmlCreateFileParserCtxt filename = Some ctx ->
  wellFormed ctx = true ->
  let after := snd (sol_metadata_load xmlCreateFileParserCtxt meta filename) in
  let fresh := snd (sol_metadata_load xmlCreateFileParserCtxt
                      sol_metadata_new filename) in
  (matching_texts f 0 (events ctx) = [] ->
   get_field f after = get_field f meta)
  /\ (matching_texts f 0 (events ctx) <> [] ->
      get_field f after = get_field f fresh).
Proof.
  intros Hctx Hgood after fresh. subst after fresh.
  rewrite !(load_well_formed _ _ _ _ Hctx Hgood). cbn [snd].
  rewrite !(run_field f (events ctx) 0 _ eq_refl).
  split; intros H.
  - rewrite H. reflexivity.
  - destruct (matching_texts f 0 (events ctx)) as [|t texts];
      [congruence | reflexivity].
Qed.

Lemma load_keeps_unset_fields_witness :
  get_field PackageName
    (snd (sol_metadata_load sample_files (mkSolMetadata (Some "a") None)
            "b.xml"))
  = Some "a".
Proof.
  exact (proj1 (load_keeps_unset_fields sample_files
                  (mkSolMetadata (Some "a") None) "b.xml"
                  (mkCtxt (partof_doc "SOL" "b") true) PackageName
                  eq_refl eq_refl)
           eq_refl).
Defined.

(** C2, as stated, fails: after loading [a.xml] and then [b.xml], both well
    formed, the record is neither empty nor what [b.xml] alone gives. *)
Lemma load_mixes_documents :
  let m1 := snd (sol_metadata_load sample_files sol_metadata_new "a.xml") in
  let m2 := snd (sol_metadata_load sample_files m1 "b.xml") in
  let b_alone := snd (sol_metadata_load sample_files sol_metadata_new "b.xml") in
  ~ ((sol_metadata_get_package_name m2 = sol_metadata_get_package_name b_alone
      /\ sol_metadata_get_component m2 = sol_metadata_get_component b_alone)
     \/ (sol_metadata_get_package_name m2 = None
         /\ sol_metadata_get_component m2 = None)).
Proof.
  cbv zeta. intros [[H _]|[H _]]; vm_compute in H; discriminate H.
Qed.

(** C2, amended: after a load whose context could not be created the
    record is as before; after a malformed document both fields are absent;
    after a well-formed one each field holds the document's value when the
    document alone gives one, and otherwise what it held before the call. *)
Theorem load_outcome_invariant
    (xmlCreateFileParserCtxt : string -> option xmlParserCtxt)
    (meta : SolMetadata) (filename : string) :
  let after := snd (sol_metadata_load xmlCreateFileParserCtxt meta filename) in
  let fresh := snd (sol_metadata_load xmlCreateFileParserCtxt
                      sol_metadata_new filename) in
  match xmlCreateFileParserCtxt filename with
  | None => after = meta
  | Some ctx =>
      if wellFormed ctx
      then forall f : field,
             get_field f after = match get_field f fresh with
                                 | Some v => Some v
                                 | None => get_field f meta
                                 end
      else sol_metadata_get_package_name after = None
           /\ sol_metadata_get_component after = None
  end.
Proof.
  cbv zeta.
  destruct (xmlCreateFileParserCtxt filename) as [ctx|] eqn:Hctx.
  - destruct (wellFormed ctx) eqn:Hgood.
    + intros f. apply (load_fresh_field _ _ _ ctx f Hctx Hgood).
    + unfold sol_metadata_load. rewrite Hctx, Hgood. split; reflexivity.
  - unfold sol_metadata_load. rewrite Hctx. reflexivity.
Qed.

(** C3: when the tokenizer judges the document not well-formed, load
    returns false and both fields are absent, whatever the events delivered
    before the error wrote. *)
Theorem load_malformed_clears
    (xmlCreateFileParserCtxt : string -> option xmlParserCtxt)
    (meta : SolMetadata) (filename : string) (ctx : xmlParserCtxt) :
  xmlCreateFileParserCtxt filename = Some ctx ->
  wellFormed ctx = false ->
  let r := sol_metadata_load xmlCreateFileParserCtxt meta filename in
  fst r = false
  /\ sol_metadata_get_package_name (snd r) = None
  /\ sol_metadata_get_component (snd r) = None.
Proof.
  intros Hctx Hbad. cbv zeta. unfold sol_metadata_load.
  rewrite Hctx, Hbad. repeat split.
Qed.

Lemma load_malformed_clears_witness :
  let r := sol_metadata_load sample_files (mkSolMetadata (Some "old") (Some "base"))
             "truncated.xml" in
  fst r = false
  /\ sol_metadata_get_package_name (snd r) = None
  /\ sol_metadata_get_component (snd r) = None.
Proof.
  exact (load_malformed_clears sample_files
           (mkSolMetadata (Some "old") (Some "base")) "truncated.xml"
           (mkCtxt [ StartElement "SOL" []; StartElement "Package" [];
                     StartElement "Name" []; Characters "a";
                     EndElement "Name" ] false)
           eq_refl eq_refl).
Defined.

(** C4: when no parser context can be created, load returns false and the
    record keeps the values it held before the call. *)
Theorem load_no_context_unchanged
    (xmlCreateFileParserCtxt : string -> option xmlParserCtxt)
    (meta : SolMetadata) (filename : string) :
  xmlCreateFileParserCtxt filename = None ->
  sol_metadata_load xmlCreateFileParserCtxt meta filename = (false, meta).
Proof.
  intros Hctx. unfold sol_metadata_load. rewrite Hctx. reflexivity.
Qed.

Lemma load_no_context_unchanged_witness :
  sol_metadata_load sample_files (mkSolMetadata (Some "old") (Some "base"))
    "missing.xml"
  = (false, mkSolMetadata (Some "old") (Some "base")).
Proof.
  exact (load_no_context_unchanged sample_files
           (mkSolMetadata (Some "old") (Some "base")) "missing.xml" eq_refl).
Defined.

(** ** Character data *)

(** C5, as stated, fails in its last clause: the active-state set
    records toggles, not the path of open elements.  Text inside a Name
    directly under the root is stored as the package name when a Package
    opens inside that Name, and so is text in a Name that an unrecognised
    wrapper separates from its Package. *)
Lemma name_outside_package_populates :
  sol_metadata_get_package_name
    (metadata
       (run [ StartElement "SOL" []; StartElement "Name" [];
              StartElement "Package" []; Characters "x";
              EndElement "Package"; EndElement "Name"; EndElement "SOL" ]
          (mkContext 0 sol_metadata_new)))
  = Some "x"
  /\ sol_metadata_get_package_name
       (metadata
          (run [ StartElement "SOL" []; StartElement "Package" [];
                 StartElement "Source" []; EndElement "Source";
                 StartElement "wrapper" []; StartElement "Name" [];
                 Characters "x"; EndElement "Name"; EndElement "wrapper";
                 EndElement "Package"; EndElement "SOL" ]
             (mkContext 0 sol_metadata_new)))
     = Some "x".
Proof. split; reflexivity. Qed.

(** C5, amended: during a parse a character event sets the package name
    to its text when the active-state set is exactly root, Package, Name,
    and leaves the package name alone for every other set; text that
    arrives while the Package flag is clear, as in a Name directly under
    the root with no Package open, never fills it. *)
Theorem characters_package_name_exact (pre : list sax_event)
    (meta : SolMetadata) (text : string) :
  char_data text = true ->
  let inst := run pre (mkContext 0 meta) in
  let inst' := deliver handler inst (Characters text) in
  (active_set (flags inst) = [ROOT; PACKAGE; NAME] ->
   sol_metadata_get_package_name (metadata inst') = Some text)
  /\ (active_set (flags inst) <> [ROOT; PACKAGE; NAME] ->
      sol_metadata_get_package_name (metadata inst')
      = sol_metadata_get_package_name (metadata inst))
  /\ (active (flags inst) PACKAGE = false ->
      sol_metadata_get_package_name (metadata inst')
      = sol_metadata_get_package_name (metadata inst))
  /\ (forall root : string,
        is_tag ROOT root = true ->
        sol_metadata_get_package_name
          (metadata (run (bare_name_doc root text) (mkContext 0 meta)))
        = sol_metadata_get_package_name meta).
Proof.
  intros Htext inst inst'. subst inst'.
  assert (Hk : Z.land (flags inst) known_mask = flags inst)
    by (apply run_known; reflexivity).
  destruct inst as [fl m]. cbn [flags metadata] in *.
  rewrite (characters_spec fl m text Hk). unfold target.
  assert (Hpkg : active_set fl = [ROOT; PACKAGE; NAME] ->
                 active fl PACKAGE = true).
  { intros Hset.
    assert (Hin : In PACKAGE (active_set fl))
      by (rewrite Hset; right; left; reflexivity).
    unfold active_set in Hin. apply filter_In in Hin. apply Hin. }
  split; [|split; [|split]].
  - intros Hset.
    destruct (list_eq_dec mdata_state_eq_dec (active_set fl)
                [ROOT; PACKAGE; NAME]); [|contradiction].
    cbn. rewrite (copied_char_data text Htext). reflexivity.
  - intros Hset.
    destruct (list_eq_dec mdata_state_eq_dec (active_set fl)
                [ROOT; PACKAGE; NAME]); [contradiction|].
    destruct (active fl COMPONENT); reflexivity.
  - intros Hclear.
    destruct (list_eq_dec mdata_state_eq_dec (active_set fl)
                [ROOT; PACKAGE; NAME]) as [Heq|_];
      [apply Hpkg in Heq; congruence|].
    destruct (active fl COMPONENT); reflexivity.
  - intros root Hroot.
    change (sol_metadata_get_package_name ?x) with (get_field PackageName x).
    rewrite (run_field PackageName _ 0 meta eq_refl).
    cbn [is_tag] in Hroot. apply orb_true_iff in Hroot.
    destruct Hroot as [H|H]; apply String.eqb_eq in H; subst root;
      reflexivity.
Qed.

Lemma characters_package_name_exact_witness :
  sol_metadata_get_package_name
    (metadata
       (deliver handler
          (run [StartElement "SOL" []; StartElement "Package" [];
                StartElement "Name" []] (mkContext 0 sol_metadata_new))
          (Characters "nano")))
  = Some "nano".
Proof.
  exact (proj1 (characters_package_name_exact
                  [StartElement "SOL" []; StartElement "Package" [];
                   StartElement "Name" []] sol_metadata_new "nano" eq_refl)
           eq_refl).
Defined.



(** ** The active-state set *)

(** C7, as stated, fails: a Package tag met before any root tag has been
    seen once, an odd number of times, and its flag is not set. *)
Lemma parity_fails_outside_root :
  ~ (active
       (flags (run [StartElement "Package" []] (mkContext 0 sol_metadata_new)))
       PACKAGE
     = Nat.odd (seen PACKAGE [StartElement "Package" []])).
Proof. vm_compute. discriminate. Qed.

(** C7, amended: at every point of a parse the root flag is set exactly
    when an odd number of tag events with either root spelling have been
    seen, and every other flag exactly when an odd number of tag events
    with its name have been seen while the root flag was set. *)
Theorem flags_parity_in_root (evs : list sax_event) (meta : SolMetadata)
    (s : mdata_state) :
  active (flags (run evs (mkContext 0 meta))) s = Nat.odd (counted s evs).
Proof.
  rewrite run_parity. cbn [flags]. unfold counted.
  destruct s; reflexivity.
Qed.

(** ** Root spellings *)

Lemma subst_name_state (from to name : string) :
  is_tag ROOT from = true -> is_tag ROOT to = true ->
  state_of_name (subst_name from to name) = state_of_name name.
Proof.
  intros Hfrom Hto. unfold subst_name.
  destruct (String.eqb_spec name from) as [->|_]; [|reflexivity].
  rewrite (is_tag_state_of_name ROOT from Hfrom).
  apply (is_tag_state_of_name ROOT to Hto).
Qed.

Lemma deliver_subst_root (from to : string) (inst : SolMetadataParseContext)
    (e : sax_event) :
  is_tag ROOT from = true -> is_tag ROOT to = true ->
  deliver handler inst (subst_root from to e) = deliver handler inst e.
Proof.
  intros Hfrom Hto. destruct e as [name attrs|name|text]; [| |reflexivity].
  - rewrite (tag_event_metadata inst (StartElement name attrs) name eq_refl).
    cbn [subst_root].
    rewrite (tag_event_metadata inst
               (StartElement (subst_name from to name) attrs) _ eq_refl).
    rewrite !next_flags_spec, (subst_name_state from to name Hfrom Hto).
    reflexivity.
  - rewrite (tag_event_metadata inst (EndElement name) name eq_refl).
    cbn [subst_root].
    rewrite (tag_event_metadata inst
               (EndElement (subst_name from to name)) _ eq_refl).
    rewrite !next_flags_spec, (subst_name_state from to name Hfrom Hto).
    reflexivity.
Qed.

Lemma run_subst_root (from to : string) (evs : list sax_event) :
  is_tag ROOT from = true -> is_tag ROOT to = true ->
  forall inst : SolMetadataParseContext,
    run (map (subst_root from to) evs) inst = run evs inst.
Proof.
  intros Hfrom Hto. induction evs as [|e evs IH]; intros inst; [reflexivity|].
  cbn [map]. change (run (?x :: ?l) inst) with (run l (deliver handler inst x)).
  rewrite (deliver_subst_root from to inst e Hfrom Hto). apply IH.
Qed.

(** A well-formed document stays well-formed under the substitution: the
    verdict can only change from malformed to well-formed. *)
Lemma subst_keeps_balanced (from to : string) (doc : list token) :
  forall open : list string,
    tags_balanced open doc = true ->
    tags_balanced (map (subst_name from to) open)
      (map (subst_token from to) doc) = true.
Proof.
  induction doc as [|t doc IH]; intros open H.
  - destruct open; [reflexivity | discriminate H].
  - destruct t as [name|name|text]; cbn [map subst_token tags_balanced] in *.
    + apply (IH (name :: open)). exact H.
    + destruct open as [|top open']; [discriminate H|]. cbn [map].
      apply andb_true_iff in H. destruct H as [Hname Hrest].
      apply String.eqb_eq in Hname. subst top.
      rewrite String.eqb_refl. apply IH. exact Hrest.
    + apply IH. exact H.
Qed.

(** C8, as stated, fails on a document that opens its root under one
    spelling and closes it under the other: [<PISI><PartOf>x</PartOf></SOL>]
    is malformed, so load returns false with both fields absent, while the
    document with SOL put for PISI is well-formed and load returns true
    with component x. *)
Lemma mixed_spelling_changes_result :
  let r := sol_metadata_load mixed_files sol_metadata_new "mixed.xml" in
  let r' := sol_metadata_load mixed_files sol_metadata_new "mixed-sol.xml" in
  fst r = false /\ fst r' = true
  /\ sol_metadata_get_component (snd r) = None
  /\ sol_metadata_get_component (snd r') = Some "x"
  /\ r' <> r.
Proof. repeat split; try reflexivity. discriminate. Qed.

Lemma events_subst_token (from to : string) (doc : list token) :
  map event_of (map (subst_token from to) doc)
  = map (subst_root from to) (map event_of doc).
Proof.
  induction doc as [|t doc IH]; [reflexivity|].
  cbn [map]. rewrite IH. destruct t; reflexivity.
Qed.

Lemma load_subst_root
    (xmlCreateFileParserCtxt : string -> option xmlParserCtxt)
    (meta : SolMetadata) (filename filename' from to : string)
    (evs : list sax_event) (good : bool) :
  is_tag ROOT from = true -> is_tag ROOT to = true ->
  xmlCreateFileParserCtxt filename = Some (mkCtxt evs good) ->
  xmlCreateFileParserCtxt filename'
  = Some (mkCtxt (map (subst_root from to) evs) good) ->
  sol_metadata_load xmlCreateFileParserCtxt meta filename'
  = sol_metadata_load xmlCreateFileParserCtxt meta filename.
Proof.
  intros Hfrom Hto Hctx Hctx'.
  unfold sol_metadata_load. rewrite Hctx, Hctx'.
  unfold xmlParseDocument. cbn [events wellFormed].
  change (fold_left (deliver handler) ?l ?i) with (run l i).
  rewrite (run_subst_root from to evs Hfrom Hto). reflexivity.
Qed.

(** C8, amended: a document and the same document with one root spelling
    replaced by the other give the same result of load and the same two
    fields whenever the tokenizer gives both the same verdict, delivering
    the same events under the other name; every well-formed document is
    such a document. *)
Theorem root_spellings_interchangeable (meta : SolMetadata)
    (from to : string) :
  (from = "PISI" /\ to = "SOL") \/ (from = "SOL" /\ to = "PISI") ->
  (forall (xmlCreateFileParserCtxt : string -> option xmlParserCtxt)
          (filename filename' : string) (evs : list sax_event) (good : bool),
      xmlCreateFileParserCtxt filename = Some (mkCtxt evs good) ->
      xmlCreateFileParserCtxt filename'
      = Some (mkCtxt (map (subst_root from to) evs) good) ->
      let r := sol_metadata_load xmlCreateFileParserCtxt meta filename in
      let r' := sol_metadata_load xmlCreateFileParserCtxt meta filename' in
      fst r' = fst r
      /\ sol_metadata_get_package_name (snd r')
         = sol_metadata_get_package_name (snd r)
      /\ sol_metadata_get_component (snd r')
         = sol_metadata_get_component (snd r))
  /\ (forall (files : string -> option (list token))
             (filename filename' : string) (doc : list token),
         files filename = Some doc ->
         files filename' = Some (map (subst_token from to) doc) ->
         tags_balanced [] doc = true ->
         let xmlCreateFileParserCtxt :=
           fun f => option_map tokenize (files f) in
         let r := sol_metadata_load xmlCreateFileParserCtxt meta filename in
         let r' := sol_metadata_load xmlCreateFileParserCtxt meta filename' in
         fst r = true /\ fst r' = true
         /\ sol_metadata_get_package_name (snd r')
            = sol_metadata_get_package_name (snd r)
         /\ sol_metadata_get_component (snd r')
            = sol_metadata_get_component (snd r)).
Proof.
  intros Hdir.
  assert (Htags : is_tag ROOT from = true /\ is_tag ROOT to = true)
    by (destruct Hdir as [[-> ->]|[-> ->]]; split; reflexivity).
  destruct Htags as [Hfrom Hto]. split.
  - intros xmlCreateFileParserCtxt filename filename' evs good Hctx Hctx'.
    cbv zeta.
    rewrite (load_subst_root _ meta filename filename' from to evs good
               Hfrom Hto Hctx Hctx').
    repeat split.
  - intros files filename filename' doc Hdoc Hdoc' Hgood. cbv zeta.
    pose proof (subst_keeps_balanced from to doc [] Hgood) as Hgood'.
    cbn [map] in Hgood'.
    assert (Hctx : option_map tokenize (files filename)
                   = Some (mkCtxt (map event_of doc) true)).
    { rewrite Hdoc. unfold tokenize. cbn [option_map]. rewrite Hgood.
      reflexivity. }
    assert (Hctx' : option_map tokenize (files filename')
                    = Some (mkCtxt (map (subst_root from to)
                                      (map event_of doc)) true)).
    { rewrite Hdoc'. unfold tokenize. cbn [option_map].
      rewrite Hgood', events_subst_token. reflexivity. }
    rewrite (load_subst_root (fun f => option_map tokenize (files f)) meta
               filename filename' from to (map event_of doc) true
               Hfrom Hto Hctx Hctx').
    rewrite (load_well_formed (fun f => option_map tokenize (files f)) meta
               filename _ Hctx eq_refl).
    repeat split.
Qed.

Lemma root_spellings_interchangeable_witness :
  let r := sol_metadata_load sample_files sol_metadata_new "a-pisi.xml" in
  let r' := sol_metadata_load sample_files sol_metadata_new "a.xml" in
  fst r' = fst r
  /\ sol_metadata_get_package_name (snd r')
     = sol_metadata_get_package_name (snd r)
  /\ sol_metadata_get_component (snd r') = sol_metadata_get_component (snd r).
Proof.
  exact (proj1 (root_spellings_interchangeable sol_metadata_new "PISI" "SOL"
                  (or_introl (conj eq_refl eq_refl)))
           sample_files "a-pisi.xml" "a.xml" (package_doc "PISI" "a") true
           eq_refl eq_refl).
Defined.

(** ** Whole documents *)

(** The same tag name twice cancels out on the flag word. *)
Lemma next_flags_twice (fl : Z) (name : string) :
  next_flags (next_flags fl name) name = fl.
Proof.
  assert (Hxx : forall g : Z, Z.lxor (Z.lxor fl g) g = fl).
  { intros g. rewrite Z.lxor_assoc, Z.lxor_nilpotent. apply Z.lxor_0_r. }
  rewrite (next_flags_spec (next_flags fl name)), next_flags_spec.
  destruct (state_of_name name) as [s|]; [|reflexivity].
  assert (Hs : s = ROOT \/ s <> ROOT)
    by (destruct s; (left; reflexivity) || (right; discriminate)).
  destruct Hs as [->|Hne]; [apply Hxx|].
  assert (Hgo : (if active (if active fl ROOT then Z.lxor fl (mask_of s)
                            else fl) ROOT
                 then Z.lxor (if active fl ROOT then Z.lxor fl (mask_of s)
                              else fl) (mask_of s)
                 else if active fl ROOT then Z.lxor fl (mask_of s) else fl)
                = fl).
  { destruct (active fl ROOT) eqn:ER.
    - rewrite active_lxor, ER.
      destruct (mdata_state_eq_dec ROOT s) as [E|_]; [congruence|].
      cbn [xorb]. apply Hxx.
    - rewrite ER. reflexivity. }
  destruct s; try congruence; exact Hgo.
Qed.

Lemma flags_after_app (evs1 evs2 : list sax_event) :
  forall fl : Z,
    flags_after fl (evs1 ++ evs2) = flags_after (flags_after fl evs1) evs2.
Proof.
  induction evs1 as [|e evs1 IH]; intros fl; [reflexivity|].
  cbn [app flags_after]. destruct (tag_name e); apply IH.
Qed.

Lemma flags_after_well_nested (evs : list sax_event) :
  well_nested evs -> forall fl : Z, flags_after fl evs = fl.
Proof.
  induction 1 as [|text rest _ IHrest
                  |name attrs inner rest _ IHinner _ IHrest]; intros fl.
  - reflexivity.
  - cbn [flags_after tag_name]. apply IHrest.
  - cbn [flags_after tag_name]. rewrite flags_after_app, IHinner.
    cbn [flags_after tag_name]. rewrite next_flags_twice. apply IHrest.
Qed.

Lemma matching_texts_app (f : field) (evs1 evs2 : list sax_event) :
  forall fl : Z,
    matching_texts f fl (evs1 ++ evs2)
    = (matching_texts f fl evs1
       ++ matching_texts f (flags_after fl evs1) evs2)%list.
Proof.
  induction evs1 as [|e evs1 IH]; intros fl; [reflexivity|].
  destruct e as [name attrs|name|text];
    cbn [app matching_texts flags_after tag_name]; try apply IH.
  destruct (target fl) as [g|]; [|apply IH].
  destruct (field_eqb f g); [|apply IH].
  rewrite IH. reflexivity.
Qed.

(** While a state of the exact set and PartOf are both out of the
    active-state set, and no tag of either comes, no text is stored. *)
Lemma quiet_block (f : field) (s : mdata_state) (evs : list sax_event) :
  In s [ROOT; PACKAGE; NAME] ->
  forall fl : Z,
    avoids [s; COMPONENT] evs = true ->
    active fl s = false -> active fl COMPONENT = false ->
    matching_texts f fl evs = [].
Proof.
  intros Hs. induction evs as [|e evs IH]; intros fl Hav Hoff Hpart;
    [reflexivity|].
  unfold avoids in Hav. cbn [forallb existsb] in Hav.
  apply andb_true_iff in Hav. destruct Hav as [He Hav].
  fold (avoids [s; COMPONENT] evs) in Hav.
  apply negb_true_iff in He. rewrite orb_false_r in He.
  apply orb_false_iff in He. destruct He as [Hes Hec].
  assert (Htag : forall name, tag_name e = Some name ->
                              matching_texts f (next_flags fl name) evs = []).
  { intros name Hname. unfold toggles in Hes, Hec. rewrite Hname in Hes, Hec.
    apply (IH _ Hav); rewrite active_next_flags.
    - rewrite Hes, Hoff. reflexivity.
    - rewrite Hec, Hpart. reflexivity. }
  destruct e as [name attrs|name|text]; cbn [matching_texts].
  - apply (Htag name eq_refl).
  - apply (Htag name eq_refl).
  - assert (Hnone : target fl = None).
    { unfold target.
      destruct (list_eq_dec mdata_state_eq_dec (active_set fl)
                  [ROOT; PACKAGE; NAME]) as [Heq|_].
      - assert (Hin : In s (active_set fl)) by (rewrite Heq; exact Hs).
        unfold active_set in Hin. apply filter_In in Hin.
        destruct Hin as [_ Hin]. congruence.
      - rewrite Hpart. reflexivity. }
    rewrite Hnone. apply (IH _ Hav Hoff Hpart).
Qed.

Lemma skip_block (f : field) (s : mdata_state) (block rest : list sax_event)
    (fl : Z) :
  In s [ROOT; PACKAGE; NAME] ->
  well_nested block -> avoids [s; COMPONENT] block = true ->
  active fl s = false -> active fl COMPONENT = false ->
  matching_texts f fl (block ++ rest) = matching_texts f fl rest.
Proof.
  intros Hs Hwn Hav Hoff Hpart.
  rewrite matching_texts_app, (quiet_block f s block Hs fl Hav Hoff Hpart),
    (flags_after_well_nested block Hwn).
  reflexivity.
Qed.

Lemma matching_chunks (f g : field) (chunks : list string)
    (rest : list sax_event) (fl : Z) :
  target fl = Some g ->
  matching_texts f fl (map Characters chunks ++ rest)
  = ((if field_eqb f g then chunks else []) ++ matching_texts f fl rest)%list.
Proof.
  intros Hg. induction chunks as [|c chunks IH].
  - destruct (field_eqb f g); reflexivity.
  - cbn [map app matching_texts]. rewrite Hg, IH.
    destruct (field_eqb f g); reflexivity.
Qed.

Lemma map_copied_char_data (chunks : list string) :
  forallb char_data chunks = true -> map copied chunks = chunks.
Proof.
  induction chunks as [|c chunks IH]; intros H; [reflexivity|].
  cbn [forallb] in H. apply andb_true_iff in H. destruct H as [Hc H].
  cbn [map]. rewrite (copied_char_data c Hc), (IH H). reflexivity.
Qed.

(** What a document around a package name sends to each field. *)
Lemma package_doc_around_texts (f : field) (root : string)
    (before inside_before : list sax_event) (chunks : list string)
    (inside_after after : list sax_event) :
  is_tag ROOT root = true ->
  well_nested before -> avoids [PACKAGE; COMPONENT] before = true ->
  well_nested inside_before ->
  avoids [NAME; COMPONENT] inside_before = true ->
  well_nested inside_after ->
  avoids [NAME; COMPONENT] inside_after = true ->
  well_nested after -> avoids [PACKAGE; COMPONENT] after = true ->
  matching_texts f 0
    (package_doc_around root before inside_before chunks inside_after after)
  = if field_eqb f PackageName then chunks else [].
Proof.
  intros Hroot Hb1 Hb2 Hi1 Hi2 Hj1 Hj2 Ha1 Ha2.
  assert (Hopen : next_flags 0 root = MDATA_ROOT).
  { cbn [is_tag] in Hroot. apply orb_true_iff in Hroot.
    destruct Hroot as [H|H]; apply String.eqb_eq in H; subst root;
      reflexivity. }
  unfold package_doc_around.
  cbn [app matching_texts]. rewrite Hopen.
  rewrite (skip_block f PACKAGE before _ MDATA_ROOT
             ltac:(right; left; reflexivity) Hb1 Hb2 eq_refl eq_refl).
  cbn [app matching_texts].
  change (next_flags MDATA_ROOT "Package")
    with (Z.lor MDATA_ROOT MDATA_PACKAGE).
  rewrite (skip_block f NAME inside_before _ (Z.lor MDATA_ROOT MDATA_PACKAGE)
             ltac:(right; right; left; reflexivity) Hi1 Hi2 eq_refl eq_refl).
  cbn [app matching_texts].
  change (next_flags (Z.lor MDATA_ROOT MDATA_PACKAGE) "Name")
    with (Z.lor (Z.lor MDATA_ROOT MDATA_PACKAGE) MDATA_NAME).
  rewrite (matching_chunks f PackageName chunks _
             (Z.lor (Z.lor MDATA_ROOT MDATA_PACKAGE) MDATA_NAME) eq_refl).
  cbn [app matching_texts].
  change (next_flags (Z.lor (Z.lor MDATA_ROOT MDATA_PACKAGE) MDATA_NAME)
            "Name")
    with (Z.lor MDATA_ROOT MDATA_PACKAGE).
  rewrite (skip_block f NAME inside_after _ (Z.lor MDATA_ROOT MDATA_PACKAGE)
             ltac:(right; right; left; reflexivity) Hj1 Hj2 eq_refl eq_refl).
  cbn [app matching_texts].
  change (next_flags (Z.lor MDATA_ROOT MDATA_PACKAGE) "Package")
    with MDATA_ROOT.
  rewrite (skip_block f PACKAGE after _ MDATA_ROOT
             ltac:(right; left; reflexivity) Ha1 Ha2 eq_refl eq_refl).
  cbn [matching_texts]. apply app_nil_r.
Qed.

(** C9, as stated, fails for two documents of the claimed form.  With X
    empty no character event arrives and the package name stays absent
    instead of being the empty string; with X = [a&amp;b] the text arrives
    in three events and the package name is the last piece, b. *)
Lemma package_name_is_not_always_x :
  let r := sol_metadata_load edge_files sol_metadata_new "empty-name.xml" in
  let r' := sol_metadata_load edge_files sol_metadata_new "entity-name.xml" in
  fst r = true
  /\ sol_metadata_get_package_name (snd r) = None
  /\ sol_metadata_get_package_name (snd r) <> Some ""
  /\ fst r' = true
  /\ sol_metadata_get_package_name (snd r') = Some "b"
  /\ sol_metadata_get_package_name (snd r') <> Some "a&b".
Proof. repeat split; try reflexivity; discriminate. Qed.

(** C9, amended: for a well-formed document
    [<root> B <Package> C <Name>X</Name> D </Package> E </root>] under
    either root spelling, where B and E are well-nested and hold no
    Package or PartOf tag, C and D are well-nested and hold no Name or
    PartOf tag, and X arrives as the character events [chunks], load on a
    fresh record returns true, the component is absent, and the package
    name is the last of the chunks: X itself when X arrives as one event,
    absent when X is empty and no event arrives. *)
Theorem load_package_doc
    (xmlCreateFileParserCtxt : string -> option xmlParserCtxt)
    (filename root : string)
    (before inside_before : list sax_event) (chunks : list string)
    (inside_after after : list sax_event) :
  is_tag ROOT root = true ->
  forallb char_data chunks = true ->
  well_nested before -> avoids [PACKAGE; COMPONENT] before = true ->
  well_nested inside_before ->
  avoids [NAME; COMPONENT] inside_before = true ->
  well_nested inside_after ->
  avoids [NAME; COMPONENT] inside_after = true ->
  well_nested after -> avoids [PACKAGE; COMPONENT] after = true ->
  xmlCreateFileParserCtxt filename
  = Some (mkCtxt (package_doc_around root before inside_before chunks
                    inside_after after) true) ->
  let r := sol_metadata_load xmlCreateFileParserCtxt sol_metadata_new
             filename in
  fst r = true
  /\ sol_metadata_get_package_name (snd r) = last_text chunks None
  /\ sol_metadata_get_component (snd r) = None
  /\ (forall x : string,
        chunks = [x] -> sol_metadata_get_package_name (snd r) = Some x).
Proof.
  intros Hroot Hx Hb1 Hb2 Hi1 Hi2 Hj1 Hj2 Ha1 Ha2 Hctx. cbv zeta.
  rewrite (load_well_formed _ _ _ _ Hctx eq_refl). cbn [fst snd events].
  assert (Hname : sol_metadata_get_package_name
                    (metadata
                       (run (package_doc_around root before inside_before
                               chunks inside_after after)
                          (mkContext 0 sol_metadata_new)))
                  = last_text chunks None).
  { change (sol_metadata_get_package_name ?m) with (get_field PackageName m).
    rewrite (run_field PackageName _ 0 _ eq_refl).
    rewrite (package_doc_around_texts PackageName root before inside_before
               chunks inside_after after Hroot Hb1 Hb2 Hi1 Hi2 Hj1 Hj2
               Ha1 Ha2).
    cbn [field_eqb]. rewrite (map_copied_char_data chunks Hx). reflexivity. }
  split; [reflexivity|]. split; [exact Hname|]. split.
  - change (sol_metadata_get_component ?m) with (get_field Component m).
    rewrite (run_field Component _ 0 _ eq_refl).
    rewrite (package_doc_around_texts Component root before inside_before
               chunks inside_after after Hroot Hb1 Hb2 Hi1 Hi2 Hj1 Hj2
               Ha1 Ha2).
    reflexivity.
  - intros x Hone. rewrite Hname, Hone. reflexivity.
Qed.

Lemma load_package_doc_witness :
  let r := sol_metadata_load
             (fun _ =>
                Some (mkCtxt
                        (package_doc_around "PISI"
                           [ StartElement "Source" []; StartElement "Name" [];
                             Characters "nano-src"; EndElement "Name";
                             EndElement "Source" ]
                           [ Characters " " ] ["nano"]
                           [ StartElement "Summary" []; Characters "editor";
                             EndElement "Summary" ]
                           [ StartElement "History" []; EndElement "History" ])
                        true))
             sol_metadata_new "pspec.xml" in
  fst r = true
  /\ sol_metadata_get_package_name (snd r) = Some "nano"
  /\ sol_metadata_get_component (snd r) = None.
Proof.
  assert (Hsrc : well_nested
                   [ StartElement "Source" []; StartElement "Name" [];
                     Characters "nano-src"; EndElement "Name";
                     EndElement "Source" ]).
  { apply (wn_elem "Source" []
             [ StartElement "Name" []; Characters "nano-src";
               EndElement "Name" ] []);
      [|apply wn_nil].
    apply (wn_elem "Name" [] [Characters "nano-src"] []);
      [apply wn_chars|]; apply wn_nil. }
  assert (Hsum : well_nested
                   [ StartElement "Summary" []; Characters "editor";
                     EndElement "Summary" ]).
  { apply (wn_elem "Summary" [] [Characters "editor"] []);
      [apply wn_chars|]; apply wn_nil. }
  assert (Hhis : well_nested
                   [ StartElement "History" []; EndElement "History" ]).
  { apply (wn_elem "History" [] [] []); apply wn_nil. }
  destruct (load_package_doc
              (fun _ =>
                 Some (mkCtxt
                         (package_doc_around "PISI"
                            [ StartElement "Source" [];
                              StartElement "Name" [];
                              Characters "nano-src"; EndElement "Name";
                              EndElement "Source" ]
                            [ Characters " " ] ["nano"]
                            [ StartElement "Summary" [];
                              Characters "editor"; EndElement "Summary" ]
                            [ StartElement "History" [];
                              EndElement "History" ])
                         true))
              "pspec.xml" "PISI" _ _ ["nano"] _ _
              eq_refl eq_refl Hsrc eq_refl
              (wn_chars " " [] wn_nil) eq_refl Hsum eq_refl Hhis eq_refl
              eq_refl)
    as (H1 & H2 & H3 & _).
  exact (conj H1 (conj H2 H3)).
Defined.

(** C10: after a parse each field holds the text of the last character
    event that matched it, and nothing of the earlier ones; a field no
    event matched holds what it held before the parse. *)
Theorem last_matching_text_wins (evs : list sax_event) (meta : SolMetadata)
    (f : field) :
  all_char_data evs = true ->
  get_field f (metadata (xmlParseDocument (mkCtxt evs true) handler
                           (mkContext 0 meta)))
  = last_text (matching_texts f 0 evs) (get_field f meta).
Proof.
  intros Hevs.
  change (xmlParseDocument (mkCtxt evs true) handler (mkContext 0 meta))
    with (run evs (mkContext 0 meta)).
  rewrite (run_field f evs 0 meta eq_refl).
  rewrite (matching_texts_char_data f evs 0 Hevs). reflexivity.
Qed.

Lemma last_matching_text_wins_witness :
  get_field PackageName
    (metadata
       (xmlParseDocument
          (mkCtxt [ StartElement "SOL" []; StartElement "Package" [];
                    StartElement "Name" []; Characters "lib";
                    Characters "xml"; EndElement "Name";
                    EndElement "Package"; EndElement "SOL" ] true)
          handler (mkContext 0 sol_metadata_new)))
  = Some "xml".
Proof.
  exact (last_matching_text_wins
           [ StartElement "SOL" []; StartElement "Package" [];
             StartElement "Name" []; Characters "lib";
             Characters "xml"; EndElement "Name";
             EndElement "Package"; EndElement "SOL" ]
           sol_metadata_new PackageName eq_refl).
Defined.

(** Several PartOf elements: the last one gives the component. *)
Example component_of_two_partof :
  sol_metadata_get_component
    (metadata
       (run [ StartElement "SOL" []; StartElement "PartOf" [];
              Characters "a"; EndElement "PartOf"; StartElement "PartOf" [];
              Characters "b"; EndElement "PartOf"; EndElement "SOL" ]
          (mkContext 0 sol_metadata_new)))
  = Some "b".
Proof. reflexivity. Qed.

(** ** Further properties of the tag tracker *)

(** X1: a tag event met twice in a row, as for an empty element, puts the
    context back where it was, whatever the name and the context. *)
Theorem flip_twice_restores (self : SolMetadataParseContext) (name : string) :
  sol_sax_flip_states (sol_sax_flip_states self name) name = self.
Proof.
  destruct self as [fl m].
  rewrite (flip_states_spec (sol_sax_flip_states _ _)), flip_states_spec.
  cbn [flags metadata]. f_equal.
  rewrite <- !next_flags_spec. apply next_flags_twice.
Qed.

(** X2: a tag event never touches the record and toggles at most one flag,
    that of a state its name stands for; a name that is none of the nine
    recognised spellings changes nothing at all. *)
Theorem tag_event_toggles_one_flag (self : SolMetadataParseContext)
    (name : string) :
  let self' := sol_sax_flip_states self name in
  metadata self' = metadata self
  /\ (flags self' = flags self
      \/ exists s : mdata_state,
           is_tag s name = true
           /\ flags self' = Z.lxor (flags self) (mask_of s))
  /\ ((forall s : mdata_state, is_tag s name = false) -> self' = self).
Proof.
  cbv zeta. rewrite flip_states_spec. cbn [flags metadata].
  split; [reflexivity|]. split.
  - destruct (state_of_name name) as [s|] eqn:Hs; [|left; reflexivity].
    apply find_some in Hs. destruct Hs as [_ Hs].
    destruct s; try (right; exists ROOT; split; [exact Hs | reflexivity]);
      (destruct (active (flags self) ROOT); [right | left; reflexivity]);
      eexists; (split; [exact Hs | reflexivity]).
  - intros Hnone.
    destruct (state_of_name name) as [s|] eqn:Hs.
    + apply find_some in Hs. destruct Hs as [_ Hs].
      rewrite Hnone in Hs. discriminate Hs.
    + destruct self; reflexivity.
Qed.

Lemma tag_event_toggles_one_flag_witness :
  sol_sax_flip_states
    (mkContext (Z.lor MDATA_ROOT MDATA_PACKAGE) sol_metadata_new) "Summary"
  = mkContext (Z.lor MDATA_ROOT MDATA_PACKAGE) sol_metadata_new.
Proof.
  exact (proj2 (proj2
           (tag_event_toggles_one_flag
              (mkContext (Z.lor MDATA_ROOT MDATA_PACKAGE) sol_metadata_new)
              "Summary"))
           (fun s => match s with ROOT | _ => eq_refl end)).
Defined.

Lemma next_flags_outside_root (name : string) :
  is_tag ROOT name = false -> next_flags 0 name = 0.
Proof.
  intros H. rewrite next_flags_spec.
  destruct (state_of_name name) as [s|] eqn:Hs; [|reflexivity].
  apply find_some in Hs. destruct Hs as [_ Hs].
  destruct s; try reflexivity. congruence.
Qed.

Lemma run_without_root (evs : list sax_event) (m : SolMetadata) :
  has_root_tag evs = false -> run evs (mkContext 0 m) = mkContext 0 m.
Proof.
  induction evs as [|e evs IH]; intros H; [reflexivity|].
  unfold has_root_tag in H. cbn [existsb] in H.
  apply orb_false_iff in H. destruct H as [He Hevs].
  change (run (e :: evs) (mkContext 0 m))
    with (run evs (deliver handler (mkContext 0 m) e)).
  assert (Hstep : deliver handler (mkContext 0 m) e = mkContext 0 m).
  { destruct e as [name attrs|name|text].
    - rewrite (tag_event_metadata _ (StartElement name attrs) name eq_refl).
      cbn [flags metadata]. rewrite (next_flags_outside_root name He).
      reflexivity.
    - rewrite (tag_event_metadata _ (EndElement name) name eq_refl).
      cbn [flags metadata]. rewrite (next_flags_outside_root name He).
      reflexivity.
    - rewrite (characters_spec 0 m text eq_refl). reflexivity. }
  rewrite Hstep. apply IH. exact Hevs.
Qed.

(** X3: a well-formed document none of whose tags is PISI or SOL is
    accepted and extracts nothing: load returns true and the record is as
    it was, whatever other tags and text the document holds. *)
Theorem load_without_root_extracts_nothing
    (xmlCreateFileParserCtxt : string -> option xmlParserCtxt)
    (meta : SolMetadata) (filename : string) (ctx : xmlParserCtxt) :
  xmlCreateFileParserCtxt filename = Some ctx ->
  wellFormed ctx = true ->
  has_root_tag (events ctx) = false ->
  sol_metadata_load xmlCreateFileParserCtxt meta filename = (true, meta).
Proof.
  intros Hctx Hgood Hroot.
  rewrite (load_well_formed _ _ _ _ Hctx Hgood).
  rewrite (run_without_root _ _ Hroot). reflexivity.
Qed.

Lemma load_without_root_extracts_nothing_witness :
  sol_metadata_load
    (fun _ => Some (mkCtxt [ StartElement "Package" [];
                             StartElement "Name" []; Characters "nano";
                             EndElement "Name"; StartElement "PartOf" [];
                             Characters "editor"; EndElement "PartOf";
                             EndElement "Package" ] true))
    (mkSolMetadata (Some "old") None) "package.xml"
  = (true, mkSolMetadata (Some "old") None).
Proof.
  exact (load_without_root_extracts_nothing _
           (mkSolMetadata (Some "old") None) "package.xml"
           (mkCtxt [ StartElement "Package" [];
                     StartElement "Name" []; Characters "nano";
                     EndElement "Name"; StartElement "PartOf" [];
                     Characters "editor"; EndElement "PartOf";
                     EndElement "Package" ] true)
           eq_refl eq_refl eq_refl).
Defined.

(** X4: throughout a parse the flag word is made of the eight state bits
    only: it lies between 0 and 510 and MDATA_MIN is never set. *)
Theorem parse_flags_in_range (evs : list sax_event) (meta : SolMetadata) :
  let fl := flags (run evs (mkContext 0 meta)) in
  0 <= fl <= 510 /\ Z.land fl MDATA_MIN = 0.
Proof.
  cbv zeta.
  assert (Hk : Z.land (flags (run evs (mkContext 0 meta))) known_mask
               = flags (run evs (mkContext 0 meta)))
    by (apply run_known; reflexivity).
  set (fl := flags (run evs (mkContext 0 meta))) in *.
  assert (Hmin : Z.land fl MDATA_MIN = 0).
  { rewrite <- Hk, <- Z.land_assoc. apply Z.land_0_r. }
  assert (Hones : Z.land fl (Z.ones 9) = fl).
  { rewrite <- Hk at 1. rewrite <- Z.land_assoc.
    change (Z.land known_mask (Z.ones 9)) with known_mask. exact Hk. }
  rewrite Z.land_ones in Hones by lia.
  change MDATA_MIN with (Z.ones 1) in Hmin.
  rewrite Z.land_ones in Hmin by lia.
  split; [|change (Z.ones 1) with MDATA_MIN;
           rewrite <- Hk, <- Z.land_assoc; apply Z.land_0_r].
  change (2 ^ 9) with 512 in Hones. change (2 ^ 1) with 2 in Hmin.
  pose proof (Z.mod_pos_bound fl 512 ltac:(lia)) as Hb.
  rewrite Hones in Hb.
  pose proof (Z.div_mod fl 2 ltac:(lia)) as Hd.
  rewrite Hmin in Hd. lia.
Qed.

(** X5: over a well-nested event stream the flag word comes back to the
    value it started from; the toggles of a whole document cancel out. *)
Theorem well_nested_restores_flags (evs : list sax_event) :
  well_nested evs ->
  forall inst : SolMetadataParseContext, flags (run evs inst) = flags inst.
Proof.
  induction 1 as [|text rest _ IHrest
                  |name attrs inner rest _ IHinner _ IHrest]; intros inst.
  - reflexivity.
  - change (run (Characters text :: rest) inst)
      with (run rest (deliver handler inst (Characters text))).
    rewrite IHrest. apply deliver_flags.
  - change (run (StartElement name attrs :: inner ++ EndElement name :: rest)
              inst)
      with (run (inner ++ EndElement name :: rest)
              (deliver handler inst (StartElement name attrs))).
    rewrite run_app.
    change (run (EndElement name :: rest) ?i)
      with (run rest (deliver handler i (EndElement name))).
    rewrite IHrest, deliver_flags. cbn [tag_name].
    rewrite IHinner, deliver_flags. cbn [tag_name].
    apply next_flags_twice.
Qed.

Lemma well_nested_restores_flags_witness :
  flags (run (nested_partof_doc "SOL" "Z") (mkContext 0 sol_metadata_new)) = 0.
Proof.
  refine (well_nested_restores_flags (nested_partof_doc "SOL" "Z") _
            (mkContext 0 sol_metadata_new)).
  apply (wn_elem "SOL" []
           [ StartElement "History" []; StartElement "PartOf" [];
             Characters "Z"; EndElement "PartOf"; EndElement "History" ] []).
  - apply (wn_elem "History" []
             [ StartElement "PartOf" []; Characters "Z";
               EndElement "PartOf" ] []).
    + apply (wn_elem "PartOf" [] [Characters "Z"] []).
      * apply wn_chars. apply wn_nil.
      * apply wn_nil.
    + apply wn_nil.
  - apply wn_nil.
Defined.

(** ** Toggling against the stack of open elements *)

Lemma schema_ok_root (st : list string) :
  schema_ok st = true -> st <> [] -> existsb (is_tag ROOT) st = true.
Proof.
  induction st as [|name st IH]; intros Hok Hne; [congruence|].
  cbn [schema_ok] in Hok. apply andb_true_iff in Hok.
  destruct Hok as [Hfit Hok]. cbn [existsb].
  destruct st as [|top st].
  - cbn [fits_schema] in Hfit. rewrite Hfit. reflexivity.
  - rewrite (IH Hok) by discriminate. apply orb_true_r.
Qed.

(** A name that fits above [st] stands for no state already open. *)
Lemma fits_schema_fresh (name : string) (st : list string) (s : mdata_state) :
  schema_ok st = true -> fits_schema name st = true ->
  is_tag s name = true -> existsb (is_tag s) st = false.
Proof.
  intros Hok Hfit Hs. destruct st as [|top st]; [reflexivity|].
  cbn [fits_schema] in Hfit.
  rewrite (is_tag_state_of_name s name Hs) in Hfit.
  apply negb_true_iff in Hfit. exact Hfit.
Qed.

Lemma fits_schema_guard (name : string) (st : list string) :
  schema_ok st = true -> fits_schema name st = true ->
  existsb (is_tag ROOT) (name :: st) = true.
Proof.
  intros Hok Hfit. apply schema_ok_root; [|discriminate].
  cbn [schema_ok]. rewrite Hfit, Hok. reflexivity.
Qed.

(** The root guard of the tracker lets a tag of state [s] through when the
    root is open or [s] is the root itself. *)
Lemma guard_open (fl : Z) (s : mdata_state) (name : string)
    (st : list string) :
  active fl ROOT = existsb (is_tag ROOT) st ->
  is_tag s name = true ->
  existsb (is_tag ROOT) (name :: st) = true ->
  match s with ROOT => true | _ => active fl ROOT end = true.
Proof.
  intros Hinv Hs Hg.
  destruct (mdata_state_eq_dec s ROOT) as [->|Hne]; [reflexivity|].
  assert (Hroot : active fl ROOT = true).
  { rewrite Hinv. cbn [existsb] in Hg.
    destruct (is_tag ROOT name) eqn:E; [|exact Hg].
    rewrite (is_tag_root_excl s name Hne E) in Hs. discriminate Hs. }
  destruct s; try congruence; exact Hroot.
Qed.

Lemma toggle_tracks_stack (evs : list sax_event) :
  forall (inst : SolMetadataParseContext) (st st' : list string),
    schema_ok st = true ->
    (forall s, active (flags inst) s = existsb (is_tag s) st) ->
    open_elements st evs = Some st' ->
    schema_ok st' = true
    /\ forall s, active (flags (run evs inst)) s = existsb (is_tag s) st'.
Proof.
  induction evs as [|e evs IH]; intros inst st st' Hok Hinv Hopen.
  - cbn [open_elements] in Hopen. injection Hopen as <-.
    split; [exact Hok | exact Hinv].
  - change (run (e :: evs) inst) with (run evs (deliver handler inst e)).
    destruct e as [name attrs|name|text]; cbn [open_elements] in Hopen.
    + destruct (fits_schema name st) eqn:Hfit; [|discriminate Hopen].
      apply (IH _ (name :: st) st'); [| |exact Hopen].
      * cbn [schema_ok]. rewrite Hfit, Hok. reflexivity.
      * intros s. rewrite deliver_flags. cbn [tag_name existsb].
        rewrite active_next_flags, Hinv.
        destruct (is_tag s name) eqn:Hs; [|apply xorb_false_r].
        rewrite (fits_schema_fresh name st s Hok Hfit Hs).
        rewrite (guard_open (flags inst) s name st (Hinv ROOT) Hs
                   (fits_schema_guard name st Hok Hfit)).
        reflexivity.
    + destruct st as [|top st0]; [discriminate Hopen|].
      destruct (String.eqb_spec name top) as [->|_]; [|discriminate Hopen].
      pose proof Hok as Hok0. cbn [schema_ok] in Hok0.
      apply andb_true_iff in Hok0. destruct Hok0 as [Hfit Hok0].
      apply (IH _ st0 st'); [exact Hok0| |exact Hopen].
      intros s. rewrite deliver_flags. cbn [tag_name].
      rewrite active_next_flags, Hinv. cbn [existsb].
      destruct (is_tag s top) eqn:Hs; [|apply xorb_false_r].
      rewrite (fits_schema_fresh top st0 s Hok0 Hfit Hs).
      assert (Hroot : match s with
                      | ROOT => true
                      | _ => active (flags inst) ROOT
                      end = true).
      { destruct s; try reflexivity; rewrite Hinv;
          apply schema_ok_root; (exact Hok || discriminate). }
      rewrite Hroot. reflexivity.
    + apply (IH _ st st'); [exact Hok| |exact Hopen].
      intros s. rewrite deliver_flags. apply Hinv.
Qed.

(** X6: on a stream that keeps to the schema (the outermost element is a
    root, closing tags match, no recognised element opens inside one of its
    own state) toggling agrees with a stack: at every point a state is in
    the active-state set exactly when an element of that state is open. *)
Theorem toggle_agrees_with_stack (evs : list sax_event) (meta : SolMetadata)
    (st : list string) :
  open_elements [] evs = Some st ->
  forall s : mdata_state,
    active (flags (run evs (mkContext 0 meta))) s = existsb (is_tag s) st.
Proof.
  intros Hopen.
  apply (toggle_tracks_stack evs (mkContext 0 meta) [] st eq_refl).
  - intros s. destruct s; reflexivity.
  - exact Hopen.
Qed.

Lemma toggle_agrees_with_stack_witness :
  active
    (flags (run [ StartElement "PISI" []; StartElement "Source" [];
                  StartElement "Packager" []; StartElement "Name" [];
                  Characters "someone"; EndElement "Name";
                  StartElement "Email" [] ]
              (mkContext 0 sol_metadata_new))) NAME
  = false.
Proof.
  exact (toggle_agrees_with_stack
           [ StartElement "PISI" []; StartElement "Source" [];
             StartElement "Packager" []; StartElement "Name" [];
             Characters "someone"; EndElement "Name";
             StartElement "Email" [] ]
           sol_metadata_new ["Email"; "Packager"; "Source"; "PISI"] eq_refl
           NAME).
Defined.

(** ** Further properties of the loader *)

Lemma metadata_ext (m m' : SolMetadata) :
  (forall f : field, get_field f m = get_field f m') -> m = m'.
Proof.
  intros H. destruct m as [p c], m' as [p' c'].
  pose proof (H PackageName) as Hp. pose proof (H Component) as Hc.
  cbn in Hp, Hc. congruence.
Qed.

Lemma last_text_twice (texts : list string) (before : option string) :
  last_text texts (last_text texts before) = last_text texts before.
Proof. destruct texts; reflexivity. Qed.

(** On the record of strings a second load of the same file gives what
    the first gave. *)
Lemma load_twice_view
    (xmlCreateFileParserCtxt : string -> option xmlParserCtxt)
    (meta : SolMetadata) (filename : string) :
  sol_metadata_load xmlCreateFileParserCtxt
    (snd (sol_metadata_load xmlCreateFileParserCtxt meta filename)) filename
  = sol_metadata_load xmlCreateFileParserCtxt meta filename.
Proof.
  destruct (xmlCreateFileParserCtxt filename) as [ctx|] eqn:Hctx.
  - destruct (wellFormed ctx) eqn:Hgood.
    + rewrite !(load_well_formed _ _ _ _ Hctx Hgood). cbn [snd]. f_equal.
      apply metadata_ext. intros f.
      rewrite !(run_field f (events ctx) 0 _ eq_refl).
      apply last_text_twice.
    + unfold sol_metadata_load. rewrite Hctx, Hgood. reflexivity.
  - unfold sol_metadata_load. rewrite Hctx. reflexivity.
Qed.

(** X8: after a successful load a field is absent exactly when it was
    absent before the call and no character event of the document matched
    it; a successful load never clears a field. *)
Theorem load_absent_iff
    (xmlCreateFileParserCtxt : string -> option xmlParserCtxt)
    (meta : SolMetadata) (filename : string) (ctx : xmlParserCtxt)
    (f : field) :
  xmlCreateFileParserCtxt filename = Some ctx ->
  wellFormed ctx = true ->
  (get_field f (snd (sol_metadata_load xmlCreateFileParserCtxt meta filename))
   = None
   <-> get_field f meta = None /\ matching_texts f 0 (events ctx) = []).
Proof.
  intros Hctx Hgood.
  rewrite (load_well_formed _ _ _ _ Hctx Hgood). cbn [snd].
  rewrite (run_field f (events ctx) 0 _ eq_refl).
  destruct (matching_texts f 0 (events ctx)) as [|t texts]; cbn [map].
  - cbn [last_text]. split; [intros H; split; [exact H | reflexivity]|].
    intros [H _]. exact H.
  - split; [intros H; discriminate H | intros [_ H]; discriminate H].
Qed.

Lemma load_absent_iff_witness :
  get_field PackageName
    (snd (sol_metadata_load sample_files sol_metadata_new "b.xml")) = None.
Proof.
  exact (proj2 (load_absent_iff sample_files sol_metadata_new "b.xml"
                  (mkCtxt (partof_doc "SOL" "b") true) PackageName
                  eq_refl eq_refl)
           (conj eq_refl eq_refl)).
Defined.

Lemma deliver_same_kind (inst : SolMetadataParseContext) (e e' : sax_event) :
  same_kind e e' -> deliver handler inst e = deliver handler inst e'.
Proof.
  destruct e as [n a|n|t], e' as [n' a'|n'|t']; cbn [same_kind]; intros H;
    try contradiction.
  - rewrite (tag_event_metadata inst (StartElement n a) n eq_refl),
      (tag_event_metadata inst (StartElement n' a') n' eq_refl),
      !next_flags_spec, H. reflexivity.
  - rewrite (tag_event_metadata inst (EndElement n) n eq_refl),
      (tag_event_metadata inst (EndElement n') n' eq_refl),
      !next_flags_spec, H. reflexivity.
  - rewrite H. reflexivity.
Qed.

(** X9: the parse sees a tag only through its kind (open or close) and the
    state its name stands for: two streams that agree on these and on the
    character data, whatever their attributes, their unrecognised names and
    their choice of root spelling at each tag, leave the same context. *)
Theorem parse_sees_states_only (evs evs' : list sax_event) :
  Forall2 same_kind evs evs' ->
  forall inst : SolMetadataParseContext, run evs inst = run evs' inst.
Proof.
  induction 1 as [|e e' evs evs' He _ IH]; intros inst; [reflexivity|].
  change (run (e :: evs) inst) with (run evs (deliver handler inst e)).
  change (run (e' :: evs') inst) with (run evs' (deliver handler inst e')).
  rewrite (deliver_same_kind inst e e' He). apply IH.
Qed.

Lemma parse_sees_states_only_witness :
  run [ StartElement "PISI" ["version"; "1"]; StartElement "Foo" [];
        StartElement "PartOf" []; Characters "base"; EndElement "PartOf";
        EndElement "Foo"; EndElement "SOL" ]
    (mkContext 0 sol_metadata_new)
  = run [ StartElement "SOL" []; StartElement "Bar" ["id"; "7"];
          StartElement "PartOf" []; Characters "base"; EndElement "PartOf";
          EndElement "Baz"; EndElement "PISI" ]
      (mkContext 0 sol_metadata_new).
Proof.
  apply parse_sees_states_only.
  repeat (apply Forall2_cons; [reflexivity|]). apply Forall2_nil.
Defined.

(** X10: the flag word after a parse depends on the tag events alone:
    dropping every character event and starting from another record gives
    the same flags. *)
Theorem flags_depend_on_tags_only (evs : list sax_event) (fl : Z)
    (m m' : SolMetadata) :
  flags (run evs (mkContext fl m))
  = flags (run (tags_only evs) (mkContext fl m')).
Proof.
  revert fl m m'. induction evs as [|e evs IH]; intros fl m m'; [reflexivity|].
  change (run (e :: evs) (mkContext fl m))
    with (run evs (deliver handler (mkContext fl m) e)).
  destruct e as [name attrs|name|text]; cbn [tags_only filter tag_name].
  - change (run (StartElement name attrs :: ?l) ?i)
      with (run l (deliver handler i (StartElement name attrs))).
    rewrite !(tag_event_metadata _ (StartElement name attrs) name eq_refl).
    apply IH.
  - change (run (EndElement name :: ?l) ?i)
      with (run l (deliver handler i (EndElement name))).
    rewrite !(tag_event_metadata _ (EndElement name) name eq_refl).
    apply IH.
  - pose proof (deliver_flags (mkContext fl m) (Characters text)) as Hfl.
    cbn [tag_name flags] in Hfl.
    destruct (deliver handler (mkContext fl m) (Characters text))
      as [fl1 m1]. cbn [flags] in Hfl. subst fl1.
    apply IH.
Qed.

(** ** Where a text goes, read off the open elements *)

Lemma active_set_of_stack (fl : Z) (st : list string) :
  (forall s, active fl s = existsb (is_tag s) st) ->
  active_set fl = states_open st.
Proof.
  intros H. unfold active_set, states_open.
  apply filter_ext. exact H.
Qed.

(** X11: in a stream that keeps to the schema the elements open around a
    text decide where it goes: to the package name when their states are
    exactly root, Package and Name, else to the component when a PartOf is
    open, else nowhere; the other field is left as it was. *)
Theorem text_goes_by_open_elements (pre : list sax_event)
    (st : list string) (text : string) (meta : SolMetadata) :
  open_elements [] pre = Some st ->
  char_data text = true ->
  let inst := run pre (mkContext 0 meta) in
  let m' := metadata (deliver handler inst (Characters text)) in
  (states_open st = [ROOT; PACKAGE; NAME] ->
   m' = mkSolMetadata (Some text) (component (metadata inst)))
  /\ (states_open st <> [ROOT; PACKAGE; NAME] ->
      existsb (is_tag COMPONENT) st = true ->
      m' = mkSolMetadata (package_name (metadata inst)) (Some text))
  /\ (states_open st <> [ROOT; PACKAGE; NAME] ->
      existsb (is_tag COMPONENT) st = false ->
      m' = metadata inst).
Proof.
  intros Hopen Htext inst m'. subst m'.
  pose proof (toggle_tracks_stack pre (mkContext 0 meta) [] st eq_refl
                (fun s => match s with ROOT | _ => eq_refl end) Hopen)
    as [_ Hact].
  fold inst in Hact.
  assert (Hk : Z.land (flags inst) known_mask = flags inst)
    by (apply run_known; reflexivity).
  pose proof (active_set_of_stack (flags inst) st Hact) as Hset.
  destruct inst as [fl m]. cbn [flags metadata] in *.
  rewrite (characters_spec fl m text Hk). unfold target.
  rewrite Hset, (Hact COMPONENT), (copied_char_data text Htext).
  destruct (list_eq_dec mdata_state_eq_dec (states_open st)
              [ROOT; PACKAGE; NAME]) as [Heq|Hne].
  - repeat split; intros; try contradiction; reflexivity.
  - destruct (existsb (is_tag COMPONENT) st) eqn:Hc;
      repeat split; intros; try contradiction; try discriminate;
      reflexivity.
Qed.

Lemma text_goes_by_open_elements_witness :
  metadata
    (deliver handler
       (run [ StartElement "SOL" []; StartElement "Package" [];
              StartElement "Summary" []; Characters "an editor";
              EndElement "Summary"; StartElement "wrapper" [];
              StartElement "Name" [] ]
          (mkContext 0 sol_metadata_new))
       (Characters "nano"))
  = mkSolMetadata (Some "nano") None.
Proof.
  exact (proj1 (text_goes_by_open_elements
                  [ StartElement "SOL" []; StartElement "Package" [];
                    StartElement "Summary" []; Characters "an editor";
                    EndElement "Summary"; StartElement "wrapper" [];
                    StartElement "Name" [] ]
                  ["Name"; "wrapper"; "Package"; "SOL"] "nano"
                  sol_metadata_new eq_refl eq_refl)
           eq_refl).
Defined.

(** ** The string blocks: allocation, release and what is lost *)

Lemma mem_ok_new : mem_ok (mkMem (mkRef None None) (mkHeap [] 0%nat)).
Proof.
  repeat split; cbn.
  - apply NoDup_nil.
  - intros a [].
  - intros f a H. destruct f; discriminate H.
  - intros a H. discriminate H.
Qed.

Lemma deref_alloc_new (h : heap) (s : string) :
  deref (snd (alloc h s)) (Some (fst (alloc h s))) = Some s.
Proof. cbn. rewrite Nat.eqb_refl. reflexivity. Qed.

Lemma deref_alloc_old (h : heap) (s : string) (p : option addr) :
  (forall a, p = Some a -> (a < brk h)%nat) ->
  deref (snd (alloc h s)) p = deref h p.
Proof.
  intros Hp. destruct p as [a|]; [|reflexivity].
  cbn. specialize (Hp a eq_refl).
  destruct (Nat.eqb_spec (brk h) a) as [E|_]; [lia | reflexivity].
Qed.

Lemma ref_below_brk (m : mem) (f : field) (a : addr) :
  mem_ok m -> ref_of f (record m) = Some a -> (a < brk (store m))%nat.
Proof.
  intros (_ & Hlt & Hin & _) H. apply Hlt. apply (Hin f). exact H.
Qed.

Lemma characters_mem_spec (fl : Z) (m : mem) (text : string) :
  Z.land fl known_mask = fl ->
  sol_sax_characters_mem fl m text (Z.of_nat (String.length text))
  = match target fl with
    | Some f => write_field f m (copied text)
    | None => m
    end.
Proof.
  intros Hk. unfold target, sol_sax_characters_mem. fold (copied text).
  change (negb (Z.land fl MDATA_COMPONENT =? 0)) with (active fl COMPONENT).
  destruct (list_eq_dec mdata_state_eq_dec (active_set fl)
              [ROOT; PACKAGE; NAME]) as [Heq|Hne].
  - apply (exact_set_iff fl Hk) in Heq. rewrite Heq. reflexivity.
  - destruct (Z.eqb_spec fl (Z.lor (Z.lor MDATA_ROOT MDATA_PACKAGE) MDATA_NAME))
      as [Heq|_].
    + exfalso. apply Hne. apply (exact_set_iff fl Hk). exact Heq.
    + destruct (active fl COMPONENT); reflexivity.
Qed.

Lemma write_field_ok (f : field) (m : mem) (s : string) :
  mem_ok m -> mem_ok (write_field f m s).
Proof.
  intros Hok. pose proof Hok as (Hnd & Hlt & Hin & Hne).
  assert (Hfresh : ~ In (brk (store m)) (map fst (blocks (store m)))).
  { intros H. apply Hlt in H. lia. }
  unfold write_field, alloc.
  destruct f; repeat split; cbn [record store blocks brk map fst
                                   package_name_ref component_ref].
  - apply NoDup_cons; assumption.
  - intros a [<-|H]; [lia | apply Hlt in H; lia].
  - intros f a H. destruct f; cbn [ref_of package_name_ref component_ref] in H.
    + injection H as <-. left. reflexivity.
    + right. apply (Hin Component). exact H.
  - intros a H Hc. injection H as <-.
    apply Hfresh. apply (Hin Component). exact Hc.
  - apply NoDup_cons; assumption.
  - intros a [<-|H]; [lia | apply Hlt in H; lia].
  - intros f a H. destruct f; cbn [ref_of package_name_ref component_ref] in H.
    + right. apply (Hin PackageName). exact H.
    + injection H as <-. left. reflexivity.
  - intros a H Hc. injection Hc as <-.
    apply Hfresh. apply (Hin PackageName). exact H.
Qed.

Lemma write_field_view (f : field) (m : mem) (s : string) :
  mem_ok m ->
  view (write_field f m s)
  = match f with
    | PackageName => mkSolMetadata (Some s) (component (view m))
    | Component => mkSolMetadata (package_name (view m)) (Some s)
    end.
Proof.
  intros Hok. unfold write_field, view.
  pose proof (deref_alloc_new (store m) s) as Hnew.
  destruct (alloc (store m) s) as [p h] eqn:Ha.
  cbn [fst snd] in Hnew.
  assert (Hold : forall g, deref h (ref_of g (record m))
                           = deref (store m) (ref_of g (record m))).
  { intros g. change h with (snd (p, h)). rewrite <- Ha.
    apply deref_alloc_old. intros a H.
    apply (ref_below_brk m g a Hok H). }
  pose proof (Hold PackageName) as Hp. pose proof (Hold Component) as Hc.
  cbn [ref_of] in Hp, Hc.
  destruct f; cbn [record store package_name_ref component_ref
                     package_name component]; rewrite Hnew.
  - rewrite Hc. reflexivity.
  - rewrite Hp. reflexivity.
Qed.

(** The allocator view and the record of strings go hand in hand. *)
Lemma run_mem_sim (evs : list sax_event) :
  forall (fl : Z) (m : mem),
    Z.land fl known_mask = fl -> mem_ok m ->
    mem_ok (snd (run_mem evs (fl, m)))
    /\ mkContext (fst (run_mem evs (fl, m))) (view (snd (run_mem evs (fl, m))))
       = run evs (mkContext fl (view m)).
Proof.
  induction evs as [|e evs IH]; intros fl m Hk Hok.
  - split; [exact Hok | reflexivity].
  - change (run_mem (e :: evs) (fl, m))
      with (run_mem evs (deliver_mem (fl, m) e)).
    change (run (e :: evs) (mkContext fl (view m)))
      with (run evs (deliver handler (mkContext fl (view m)) e)).
    destruct e as [name attrs|name|text]; cbn [deliver_mem fst snd].
    + rewrite (tag_event_metadata _ (StartElement name attrs) name eq_refl).
      apply IH; [apply next_flags_known|]; assumption.
    + rewrite (tag_event_metadata _ (EndElement name) name eq_refl).
      apply IH; [apply next_flags_known|]; assumption.
    + rewrite (characters_mem_spec fl m text Hk),
        (characters_spec fl (view m) text Hk).
      destruct (target fl) as [f|]; [|apply IH; assumption].
      pose proof (write_field_ok f m (copied text) Hok) as Hok'.
      specialize (IH fl _ Hk Hok').
      rewrite (write_field_view f m (copied text) Hok) in IH.
      destruct f; exact IH.
Qed.

Lemma points_to_hit (r : SolMetadataRef) (a : addr) :
  points_to r a = hit (package_name_ref r) a || hit (component_ref r) a.
Proof. reflexivity. Qed.

(** Among blocks with distinct addresses, leaving one out that passed the
    filter makes the result one shorter. *)
Lemma filter_leave_out (bl : list (addr * string)) (q : addr -> bool)
    (a0 : addr) :
  NoDup (map fst bl) -> In a0 (map fst bl) -> q a0 = true ->
  List.length (filter (fun b => q (fst b)) bl)
  = S (List.length
         (filter (fun b => q (fst b) && negb (Nat.eqb (fst b) a0)) bl)).
Proof.
  induction bl as [|[a s] bl IH]; intros Hnd Hin Hq; [destruct Hin|].
  cbn [map fst] in Hnd, Hin. inversion Hnd as [|x l Hnotin Hnd']; subst.
  cbn [filter fst].
  destruct (Nat.eqb_spec a a0) as [->|Hne].
  - rewrite Hq. cbn [andb negb List.length]. f_equal. f_equal.
    apply filter_ext_in. intros [a s'] Hb. cbn [fst].
    destruct (Nat.eqb_spec a a0) as [->|_]; [|rewrite andb_true_r; reflexivity].
    exfalso. apply Hnotin. apply (in_map fst) in Hb. exact Hb.
  - destruct Hin as [E|Hin]; [congruence|].
    rewrite andb_true_r.
    destruct (q a); cbn [List.length]; rewrite (IH Hnd' Hin Hq); reflexivity.
Qed.

Lemma leak_on_overwrite (bl : list (addr * string)) (old other : option addr)
    (new : addr) (s : string) :
  NoDup (map fst bl) ->
  (forall a, In a (map fst bl) -> (a < new)%nat) ->
  (forall a, old = Some a -> In a (map fst bl)) ->
  (forall a, old = Some a -> other <> Some a) ->
  List.length
    (filter (fun b => negb (hit (Some new) (fst b) || hit other (fst b)))
       ((new, s) :: bl))
  = (List.length
       (filter (fun b => negb (hit old (fst b) || hit other (fst b))) bl)
     + match old with Some _ => 1 | None => 0 end)%nat.
Proof.
  intros Hnd Hlt Hin Hne.
  cbn [filter fst hit]. rewrite Nat.eqb_refl. cbn [orb negb].
  assert (Hrest : filter (fun b : addr * string =>
                            negb (Nat.eqb (fst b) new || hit other (fst b))) bl
                  = filter (fun b : addr * string =>
                              negb (hit other (fst b))) bl).
  { apply filter_ext_in. intros [a s'] Hb. cbn [fst].
    apply (in_map fst) in Hb. apply Hlt in Hb. cbn [fst] in Hb.
    destruct (Nat.eqb_spec a new); [lia | reflexivity]. }
  rewrite Hrest.
  destruct old as [a0|]; [|cbn [hit orb]; rewrite Nat.add_0_r; reflexivity].
  rewrite (filter_leave_out bl (fun a => negb (hit other a)) a0 Hnd
             (Hin a0 eq_refl)).
  - rewrite Nat.add_1_r. f_equal. f_equal.
    apply filter_ext. intros [a s']. cbn [fst hit].
    destruct (Nat.eqb a a0), (hit other a); reflexivity.
  - specialize (Hne a0 eq_refl).
    destruct other as [c|]; [|reflexivity]. cbn [hit].
    destruct (Nat.eqb_spec a0 c) as [->|_]; [congruence | reflexivity].
Qed.

Lemma leaked_swap (m : mem) :
  leaked m
  = filter (fun b : addr * string =>
              negb (hit (component_ref (record m)) (fst b)
                    || hit (package_name_ref (record m)) (fst b)))
      (blocks (store m)).
Proof.
  unfold leaked. apply filter_ext. intros b.
  rewrite points_to_hit, orb_comm. reflexivity.
Qed.

Lemma write_field_leaked (f : field) (m : mem) (s : string) :
  mem_ok m ->
  List.length (leaked (write_field f m s))
  = (List.length (leaked m)
     + match ref_of f (record m) with Some _ => 1 | None => 0 end)%nat.
Proof.
  intros (Hnd & Hlt & Hin & Hne). destruct f.
  - exact (leak_on_overwrite (blocks (store m))
             (package_name_ref (record m)) (component_ref (record m))
             (brk (store m)) s Hnd Hlt (Hin PackageName) Hne).
  - assert (Hne' : forall a, component_ref (record m) = Some a ->
                             package_name_ref (record m) <> Some a).
    { intros a Hc Hp. apply (Hne a Hp Hc). }
    rewrite (leaked_swap m), (leaked_swap (write_field Component m s)).
    exact (leak_on_overwrite (blocks (store m))
             (component_ref (record m)) (package_name_ref (record m))
             (brk (store m)) s Hnd Hlt (Hin Component) Hne').
Qed.

Lemma lost_some (a : addr) (n : nat) : lost (Some a) n = n.
Proof. destruct n; cbn [lost]; lia. Qed.

Lemma write_field_ref (f g : field) (m : mem) (s : string) :
  ref_of g (record (write_field f m s))
  = if field_eqb f g then Some (brk (store m)) else ref_of g (record m).
Proof. destruct f, g; reflexivity. Qed.

(** What a parse loses: for each field the blocks it took and overwrote,
    and the block the field held before when the parse overwrote it. *)
Lemma run_mem_leaked (evs : list sax_event) :
  forall (fl : Z) (m : mem),
    Z.land fl known_mask = fl -> mem_ok m ->
    List.length (leaked (snd (run_mem evs (fl, m))))
    = (List.length (leaked m)
       + lost (package_name_ref (record m))
           (List.length (matching_texts PackageName fl evs))
       + lost (component_ref (record m))
           (List.length (matching_texts Component fl evs)))%nat.
Proof.
  induction evs as [|e evs IH]; intros fl m Hk Hok.
  - cbn. lia.
  - change (run_mem (e :: evs) (fl, m))
      with (run_mem evs (deliver_mem (fl, m) e)).
    destruct e as [name attrs|name|text];
      cbn [deliver_mem fst snd matching_texts].
    + apply IH; [apply next_flags_known|]; assumption.
    + apply IH; [apply next_flags_known|]; assumption.
    + rewrite (characters_mem_spec fl m text Hk).
      destruct (target fl) as [f|]; [|apply IH; assumption].
      refine (eq_trans (IH fl _ Hk (write_field_ok f m (copied text) Hok)) _).
      rewrite (write_field_leaked f m (copied text) Hok).
      change (package_name_ref ?r) with (ref_of PackageName r).
      change (component_ref ?r) with (ref_of Component r).
      rewrite !write_field_ref.
      destruct f; cbn [field_eqb List.length lost]; rewrite lost_some; lia.
Qed.

Lemma free_blocks (h : heap) (p : option addr) :
  blocks (free h p)
  = filter (fun b : addr * string => negb (hit p (fst b))) (blocks h).
Proof.
  destruct p as [a|]; [reflexivity|]. cbn [free hit negb].
  induction (blocks h) as [|b bl IH]; [reflexivity|].
  cbn [filter]. rewrite <- IH. reflexivity.
Qed.

Lemma filter_twice {A : Type} (f g : A -> bool) (l : list A) :
  filter f (filter g l) = filter (fun x => g x && f x) l.
Proof.
  induction l as [|x l IH]; [reflexivity|].
  cbn [filter]. destruct (g x); cbn [filter andb]; rewrite IH; reflexivity.
Qed.

Lemma in_fst_filter (f : addr * string -> bool) (bl : list (addr * string))
    (a : addr) :
  In a (map fst (filter f bl)) -> In a (map fst bl).
Proof.
  intros H. apply in_map_iff in H. destruct H as (b & Hb & Hin).
  apply filter_In in Hin. destruct Hin as [Hin _].
  apply in_map_iff. exists b. split; assumption.
Qed.

Lemma nodup_fst_filter (f : addr * string -> bool)
    (bl : list (addr * string)) :
  NoDup (map fst bl) -> NoDup (map fst (filter f bl)).
Proof.
  induction bl as [|b bl IH]; intros H; [exact H|].
  cbn [map] in H. inversion H as [|x l Hnotin Hnd]; subst.
  cbn [filter]. destruct (f b); [|apply IH; exact Hnd].
  cbn [map]. apply NoDup_cons; [|apply IH; exact Hnd].
  intros Hin. apply Hnotin. apply (in_fst_filter f bl _ Hin).
Qed.

(** What [sol_metadata_clean] releases: the blocks the two fields point
    to, and no other. *)
Lemma clean_mem_blocks (m : mem) :
  blocks (store (sol_metadata_clean_mem m)) = leaked m.
Proof.
  unfold sol_metadata_clean_mem, leaked. cbn [store].
  rewrite !free_blocks, filter_twice.
  apply filter_ext. intros b. rewrite points_to_hit.
  destruct (hit (package_name_ref (record m)) (fst b)),
    (hit (component_ref (record m)) (fst b)); reflexivity.
Qed.

Lemma clean_mem_ok (m : mem) : mem_ok m -> mem_ok (sol_metadata_clean_mem m).
Proof.
  intros (Hnd & Hlt & _ & _). repeat split.
  - rewrite clean_mem_blocks. apply nodup_fst_filter. exact Hnd.
  - intros a Hin. rewrite clean_mem_blocks in Hin.
    apply in_fst_filter in Hin. apply Hlt in Hin.
    unfold sol_metadata_clean_mem. cbn [store].
    destruct (package_name_ref (record m)), (component_ref (record m));
      exact Hin.
  - intros f a H. destruct f; discriminate H.
  - intros a H. discriminate H.
Qed.

Lemma load_mem_ok
    (xmlCreateFileParserCtxt : string -> option xmlParserCtxt)
    (m : mem) (filename : string) :
  mem_ok m ->
  mem_ok (snd (sol_metadata_load_mem xmlCreateFileParserCtxt m filename)).
Proof.
  intros Hok. unfold sol_metadata_load_mem.
  destruct (xmlCreateFileParserCtxt filename) as [ctx|]; [|exact Hok].
  destruct (run_mem_sim (events ctx) 0 m eq_refl Hok) as [Hok' _].
  destruct (wellFormed ctx); cbn [negb snd];
    [exact Hok' | apply clean_mem_ok; exact Hok'].
Qed.

Lemma load_mem_view
    (xmlCreateFileParserCtxt : string -> option xmlParserCtxt)
    (m : mem) (filename : string) :
  mem_ok m ->
  (fst (sol_metadata_load_mem xmlCreateFileParserCtxt m filename),
   view (snd (sol_metadata_load_mem xmlCreateFileParserCtxt m filename)))
  = sol_metadata_load xmlCreateFileParserCtxt (view m) filename.
Proof.
  intros Hok. unfold sol_metadata_load_mem, sol_metadata_load.
  destruct (xmlCreateFileParserCtxt filename) as [ctx|]; [|reflexivity].
  destruct (run_mem_sim (events ctx) 0 m eq_refl Hok) as [_ Hsim].
  change (xmlParseDocument ctx handler (mkContext 0 (view m)))
    with (run (events ctx) (mkContext 0 (view m))).
  rewrite <- Hsim. cbn [metadata].
  destruct (wellFormed ctx); reflexivity.
Qed.

(** X7: loading the same file a second time returns the verdict of the
    first load and leaves the accessors reading the same two strings as
    after the first load.  The strings are fresh copies: the second load
    takes new blocks and the fields point to them, so the memory itself is
    not what it was. *)
Theorem load_twice_same_strings
    (xmlCreateFileParserCtxt : string -> option xmlParserCtxt)
    (m : mem) (filename : string) :
  mem_ok m ->
  let r1 := sol_metadata_load_mem xmlCreateFileParserCtxt m filename in
  let r2 := sol_metadata_load_mem xmlCreateFileParserCtxt (snd r1) filename in
  fst r2 = fst r1
  /\ sol_metadata_get_package_name (view (snd r2))
     = sol_metadata_get_package_name (view (snd r1))
  /\ sol_metadata_get_component (view (snd r2))
     = sol_metadata_get_component (view (snd r1)).
Proof.
  intros Hok. cbv zeta.
  pose proof (load_mem_ok xmlCreateFileParserCtxt m filename Hok) as Hok1.
  pose proof (load_mem_view xmlCreateFileParserCtxt m filename Hok) as H1.
  pose proof (load_mem_view xmlCreateFileParserCtxt _ filename Hok1) as H2.
  pose proof (load_twice_view xmlCreateFileParserCtxt (view m) filename)
    as Htwice.
  rewrite <- H1 in Htwice. cbn [snd] in Htwice.
  rewrite <- H2 in Htwice.
  pose proof (f_equal fst Htwice) as Hfst.
  pose proof (f_equal snd Htwice) as Hview.
  cbn [fst snd] in Hfst, Hview.
  rewrite Hfst, Hview. repeat split.
Qed.

Lemma load_twice_same_strings_witness :
  let r1 := sol_metadata_load_mem sample_files
              (mkMem (mkRef None None) (mkHeap [] 0%nat)) "a.xml" in
  let r2 := sol_metadata_load_mem sample_files (snd r1) "a.xml" in
  fst r2 = fst r1
  /\ sol_metadata_get_package_name (view (snd r2))
     = sol_metadata_get_package_name (view (snd r1))
  /\ sol_metadata_get_component (view (snd r2))
     = sol_metadata_get_component (view (snd r1)).
Proof.
  exact (load_twice_same_strings sample_files
           (mkMem (mkRef None None) (mkHeap [] 0%nat)) "a.xml" mem_ok_new).
Defined.

(** X12: the code with its pointers and the record of strings agree: from
    a memory the code can be in, load returns the same verdict, the
    accessors then read the same two strings, and the memory is again one
    the code can be in (no field dangles, the two fields never share a
    block). *)
Theorem load_mem_refines
    (xmlCreateFileParserCtxt : string -> option xmlParserCtxt)
    (m : mem) (filename : string) :
  mem_ok m ->
  let r := sol_metadata_load_mem xmlCreateFileParserCtxt m filename in
  mem_ok (snd r)
  /\ (fst r, view (snd r))
     = sol_metadata_load xmlCreateFileParserCtxt (view m) filename.
Proof.
  intros Hok. cbv zeta. unfold sol_metadata_load_mem, sol_metadata_load.
  destruct (xmlCreateFileParserCtxt filename) as [ctx|];
    [|split; [exact Hok | reflexivity]].
  destruct (run_mem_sim (events ctx) 0 m eq_refl Hok) as [Hok' Hsim].
  change (xmlParseDocument ctx handler (mkContext 0 (view m)))
    with (run (events ctx) (mkContext 0 (view m))).
  rewrite <- Hsim. cbn [metadata].
  destruct (wellFormed ctx); cbn [negb fst snd].
  - split; [exact Hok' | reflexivity].
  - split; [apply clean_mem_ok; exact Hok' | reflexivity].
Qed.

Lemma load_mem_refines_witness :
  let r := sol_metadata_load_mem sample_files
             (mkMem (mkRef None None) (mkHeap [] 0%nat)) "a.xml" in
  mem_ok (snd r)
  /\ (fst r, view (snd r))
     = sol_metadata_load sample_files
         (view (mkMem (mkRef None None) (mkHeap [] 0%nat))) "a.xml".
Proof.
  exact (load_mem_refines sample_files
           (mkMem (mkRef None None) (mkHeap [] 0%nat)) "a.xml" mem_ok_new).
Defined.

(** X13: a successful load releases nothing.  For each field, of the
    blocks taken by the character events that matched it all but the last
    are left allocated with no pointer to them, and so is the block the
    field held before the call when some event matched. *)
Theorem load_mem_leaks
    (xmlCreateFileParserCtxt : string -> option xmlParserCtxt)
    (m : mem) (filename : string) (ctx : xmlParserCtxt) :
  mem_ok m ->
  xmlCreateFileParserCtxt filename = Some ctx ->
  wellFormed ctx = true ->
  let m' := snd (sol_metadata_load_mem xmlCreateFileParserCtxt m filename) in
  List.length (leaked m')
  = (List.length (leaked m)
     + lost (package_name_ref (record m))
         (List.length (matching_texts PackageName 0%Z (events ctx)))
     + lost (component_ref (record m))
         (List.length (matching_texts Component 0%Z (events ctx))))%nat.
Proof.
  intros Hok Hctx Hgood. cbv zeta. unfold sol_metadata_load_mem.
  rewrite Hctx, Hgood. cbn [negb snd].
  apply (run_mem_leaked (events ctx) 0 m eq_refl Hok).
Qed.

Lemma load_mem_leaks_witness :
  List.length
    (leaked
       (snd (sol_metadata_load_mem sample_files
               (snd (sol_metadata_load_mem sample_files
                       (mkMem (mkRef None None) (mkHeap [] 0%nat)) "a.xml"))
               "a-pisi.xml")))
  = 1%nat.
Proof.
  exact (load_mem_leaks sample_files
           (snd (sol_metadata_load_mem sample_files
                   (mkMem (mkRef None None) (mkHeap [] 0%nat)) "a.xml"))
           "a-pisi.xml" (mkCtxt (package_doc "PISI" "a") true)
           (load_mem_ok sample_files
              (mkMem (mkRef None None) (mkHeap [] 0%nat)) "a.xml" mem_ok_new)
           eq_refl eq_refl).
Defined.

(** X14: a load that ends on a malformed document leaves both fields NULL
    and releases only the blocks the fields pointed to when the parse
    stopped: what the parse had overwritten stays allocated, out of
    reach. *)
Theorem load_mem_malformed
    (xmlCreateFileParserCtxt : string -> option xmlParserCtxt)
    (m : mem) (filename : string) (ctx : xmlParserCtxt) :
  mem_ok m ->
  xmlCreateFileParserCtxt filename = Some ctx ->
  wellFormed ctx = false ->
  let m' := snd (sol_metadata_load_mem xmlCreateFileParserCtxt m filename) in
  record m' = mkRef None None
  /\ leaked m' = blocks (store m')
  /\ List.length (blocks (store m'))
     = (List.length (leaked m)
        + lost (package_name_ref (record m))
            (List.length (matching_texts PackageName 0%Z (events ctx)))
        + lost (component_ref (record m))
            (List.length (matching_texts Component 0%Z (events ctx))))%nat.
Proof.
  intros Hok Hctx Hbad. cbv zeta. unfold sol_metadata_load_mem.
  rewrite Hctx, Hbad. cbn [negb snd].
  split; [reflexivity|]. split.
  - unfold leaked. cbn [record sol_metadata_clean_mem].
    set (bl := blocks _). clearbody bl.
    induction bl as [|b bl IH]; [reflexivity|].
    cbn [filter points_to package_name_ref component_ref orb negb].
    f_equal. exact IH.
  - rewrite clean_mem_blocks.
    apply (run_mem_leaked (events ctx) 0 m eq_refl Hok).
Qed.

Lemma load_mem_malformed_witness :
  List.length
    (blocks
       (store
          (snd (sol_metadata_load_mem sample_files
                  (snd (sol_metadata_load_mem sample_files
                          (mkMem (mkRef None None) (mkHeap [] 0%nat))
                          "a.xml"))
                  "truncated.xml"))))
  = 1%nat.
Proof.
  exact (proj2 (proj2
           (load_mem_malformed sample_files
              (snd (sol_metadata_load_mem sample_files
                      (mkMem (mkRef None None) (mkHeap [] 0%nat)) "a.xml"))
              "truncated.xml"
              (mkCtxt [ StartElement "SOL" []; StartElement "Package" [];
                        StartElement "Name" []; Characters "a";
                        EndElement "Name" ] false)
              (load_mem_ok sample_files
                 (mkMem (mkRef None None) (mkHeap [] 0%nat)) "a.xml"
                 mem_ok_new)
              eq_refl eq_refl))).
Defined.

Lemma length_filter_all (bl : list (addr * string)) :
  List.length (filter (fun b : addr * string => (fun _ : addr => true) (fst b))
                 bl)
  = List.length bl.
Proof.
  induction bl as [|b bl IH]; [reflexivity|].
  cbn [filter List.length]. rewrite IH. reflexivity.
Qed.

Lemma leaked_count (m : mem) :
  mem_ok m ->
  List.length (blocks (store m))
  = (List.length (leaked m)
     + match package_name_ref (record m) with Some _ => 1 | None => 0 end
     + match component_ref (record m) with Some _ => 1 | None => 0 end)%nat.
Proof.
  intros (Hnd & _ & Hin & Hne).
  pose proof (Hin PackageName) as Hp. pose proof (Hin Component) as Hc.
  cbn [ref_of] in Hp, Hc. unfold leaked.
  destruct (record m) as [p c]. cbn [package_name_ref component_ref] in *.
  set (bl := blocks (store m)) in *. clearbody bl.
  transitivity
    (List.length
       (filter (fun x : addr * string => (fun _ : addr => true) (fst x)) bl));
    [symmetry; apply length_filter_all|].
  destruct p as [a|], c as [b|].
  - assert (Hab : a <> b) by (intros ->; apply (Hne b eq_refl eq_refl)).
    etransitivity;
      [apply (filter_leave_out bl (fun _ => true) a Hnd (Hp a eq_refl)
                eq_refl)|].
    rewrite Nat.add_1_r, Nat.add_1_r. f_equal.
    transitivity
      (List.length
         (filter (fun x : addr * string =>
                    (fun y : addr => negb (Nat.eqb y a)) (fst x)) bl));
      [f_equal; apply filter_ext; intros x; reflexivity|].
    etransitivity;
      [apply (filter_leave_out bl (fun y => negb (Nat.eqb y a)) b Hnd
                (Hc b eq_refl))|].
    + destruct (Nat.eqb_spec b a); [congruence | reflexivity].
    + f_equal. f_equal. apply filter_ext. intros x.
      rewrite points_to_hit. cbn [package_name_ref component_ref hit].
      destruct (Nat.eqb (fst x) a), (Nat.eqb (fst x) b); reflexivity.
  - etransitivity;
      [apply (filter_leave_out bl (fun _ => true) a Hnd (Hp a eq_refl)
                eq_refl)|].
    rewrite Nat.add_0_r, Nat.add_1_r. f_equal. f_equal.
    apply filter_ext. intros x.
    rewrite points_to_hit. cbn [package_name_ref component_ref hit].
    destruct (Nat.eqb (fst x) a); reflexivity.
  - etransitivity;
      [apply (filter_leave_out bl (fun _ => true) b Hnd (Hc b eq_refl)
                eq_refl)|].
    rewrite Nat.add_0_r, Nat.add_1_r. reflexivity.
  - rewrite !Nat.add_0_r. reflexivity.
Qed.

(** X15: [sol_metadata_clean] sets both fields to NULL and releases the
    blocks they pointed to, one per non-NULL field, and nothing else: the
    blocks that stay are those that were already out of reach.  Cleaning a
    second time changes nothing. *)
Theorem clean_mem_releases_fields_only (m : mem) :
  mem_ok m ->
  let m' := sol_metadata_clean_mem m in
  record m' = mkRef None None
  /\ blocks (store m') = leaked m
  /\ List.length (blocks (store m))
     = (List.length (blocks (store m'))
        + match package_name_ref (record m) with Some _ => 1 | None => 0 end
        + match component_ref (record m) with Some _ => 1 | None => 0 end)%nat
  /\ sol_metadata_clean_mem m' = m'.
Proof.
  intros Hok. cbv zeta.
  split; [reflexivity|]. split; [apply clean_mem_blocks|]. split.
  - rewrite clean_mem_blocks. apply leaked_count. exact Hok.
  - unfold sol_metadata_clean_mem. cbn [record store package_name_ref
      component_ref free].
    destruct (free (free (store m) (package_name_ref (record m)))
                (component_ref (record m))); reflexivity.
Qed.

Lemma clean_mem_releases_fields_only_witness :
  blocks
    (store
       (sol_metadata_clean_mem
          (snd (sol_metadata_load_mem sample_files
                  (mkMem (mkRef None None) (mkHeap [] 0%nat)) "a.xml"))))
  = [].
Proof.
  exact (proj1 (proj2
           (clean_mem_releases_fields_only
              (snd (sol_metadata_load_mem sample_files
                      (mkMem (mkRef None None) (mkHeap [] 0%nat)) "a.xml"))
              (load_mem_ok sample_files
                 (mkMem (mkRef None None) (mkHeap [] 0%nat)) "a.xml"
                 mem_ok_new)))).
Defined.

(** ** The bounded copy *)

Lemma strndup_prefix (text more : string) :
  nul_free text = true ->
  strndup (text ++ more) (Z.of_nat (String.length text)) = text.
Proof.
  induction text as [|c text IH]; intros Hnul.
  - cbn [String.append String.length]. destruct more; reflexivity.
  - cbn [nul_free] in Hnul. apply andb_true_iff in Hnul.
    destruct Hnul as [Hc Hnul].
    cbn [String.append strndup String.length].
    destruct (Z.leb_spec (Z.of_nat (S (String.length text))) 0); [lia|].
    destruct (Ascii.eqb c zero); [discriminate Hc|].
    replace (Z.of_nat (S (String.length text)) - 1)
      with (Z.of_nat (String.length text)) by lia.
    rewrite (IH Hnul). reflexivity.
Qed.

(** X16: the character callback copies the [len] bytes it is handed and
    not one more: whatever follows the text in the tokenizer's buffer has
    no influence on the context it leaves. *)
Theorem characters_ignores_rest_of_buffer (self : SolMetadataParseContext)
    (text more : string) :
  char_data text = true ->
  sol_sax_characters self (text ++ more) (Z.of_nat (String.length text))
  = sol_sax_characters self text (Z.of_nat (String.length text)).
Proof.
  intros Htext. unfold sol_sax_characters.
  fold (copied text). rewrite (copied_char_data text Htext).
  assert (Hcopy : strndup (text ++ more)
                    (size_t_of_int (Z.of_nat (String.length text))) = text).
  { unfold char_data in Htext. apply andb_true_iff in Htext.
    destruct Htext as [Hnul Hlen]. apply Z.ltb_lt in Hlen.
    unfold size_t_of_int. rewrite Z.mod_small by lia.
    apply strndup_prefix. exact Hnul. }
  rewrite Hcopy. reflexivity.
Qed.

Lemma characters_ignores_rest_of_buffer_witness :
  sol_sax_characters
    (mkContext (Z.lor (Z.lor MDATA_ROOT MDATA_PACKAGE) MDATA_NAME)
       sol_metadata_new)
    "nano</Name></Package>" 4
  = mkContext (Z.lor (Z.lor MDATA_ROOT MDATA_PACKAGE) MDATA_NAME)
      (mkSolMetadata (Some "nano") None).
Proof.
  exact (characters_ignores_rest_of_buffer
           (mkContext (Z.lor (Z.lor MDATA_ROOT MDATA_PACKAGE) MDATA_NAME)
              sol_metadata_new)
           "nano" "</Name></Package>" eq_refl).
Defined.

(** ** The loop over the table *)

Lemma flip_mapping_find (self : SolMetadataParseContext) (name : string)
    (l rest : list MetaMap) :
  (forall m, In m l -> key m <> None) ->
  flip_mapping self name (l ++ rest)
  = match find (name_matches name) l with
    | Some m => mkContext (Z.lxor (flags self) (flag m)) (metadata self)
    | None => flip_mapping self name rest
    end.
Proof.
  induction l as [|m l IH]; intros Hkeys; [reflexivity|].
  cbn [app flip_mapping find]. unfold name_matches at 1.
  destruct (key m) as [k|] eqn:Hk;
    [|exfalso; apply (Hkeys m (or_introl eq_refl)); exact Hk].
  unfold sol_sax_flip_state, xmlStrEqual.
  destruct (String.eqb name k); cbn [negb]; [reflexivity|].
  apply IH. intros m' Hin. apply Hkeys. right. exact Hin.
Qed.

Lemma find_permutation {A : Type} (P : A -> bool) (l l' : list A) :
  Permutation l l' ->
  (forall x y, In x l -> In y l -> P x = true -> P y = true -> x = y) ->
  find P l = find P l'.
Proof.
  intros Hperm Huniq.
  destruct (find P l) as [x|] eqn:E, (find P l') as [y|] eqn:E';
    try reflexivity.
  - apply find_some in E. apply find_some in E'.
    destruct E as [Hx Px], E' as [Hy Py].
    apply (Permutation_in _ (Permutation_sym Hperm)) in Hy.
    f_equal. apply Huniq; assumption.
  - apply find_some in E. destruct E as [Hx Px].
    apply (Permutation_in _ Hperm) in Hx.
    rewrite (find_none _ _ E' x Hx) in Px. discriminate Px.
  - apply find_some in E'. destruct E' as [Hy Py].
    apply (Permutation_in _ (Permutation_sym Hperm)) in Hy.
    rewrite (find_none _ _ E y Hy) in Py. discriminate Py.
Qed.

Lemma real_entries_keys (m : MetaMap) : In m real_entries -> key m <> None.
Proof.
  intros H. cbn in H.
  repeat (destruct H as [<-|H]; [discriminate|]). destruct H.
Qed.

Lemma real_entries_distinct (name : string) (x y : MetaMap) :
  In x real_entries -> In y real_entries ->
  name_matches name x = true -> name_matches name y = true -> x = y.
Proof.
  intros Hx Hy Px Py. cbn in Hx, Hy.
  repeat (destruct Hx as [<-|Hx];
          [cbn in Px; apply String.eqb_eq in Px; subst name;
           repeat (destruct Hy as [<-|Hy];
                   [first [reflexivity | discriminate Py]|]);
           destruct Hy|]).
  destruct Hx.
Qed.

(** X17: the loop over the table toggles the flag of the one entry that
    carries the name, so the order of the entries before the terminator is
    of no consequence, and nothing placed after the terminator is ever
    consulted. *)
Theorem mapping_order_irrelevant (self : SolMetadataParseContext)
    (name : string) (l extra : list MetaMap) :
  Permutation real_entries l ->
  flip_mapping self name (l ++ mkMetaMap None 0 :: extra)
  = flip_mapping self name meta_mapping.
Proof.
  intros Hperm.
  change meta_mapping with (real_entries ++ [mkMetaMap None 0])%list.
  rewrite (flip_mapping_find self name real_entries _ real_entries_keys).
  rewrite (flip_mapping_find self name l).
  - rewrite <- (find_permutation (name_matches name) real_entries l Hperm
                  (real_entries_distinct name)).
    reflexivity.
  - intros m Hin. apply real_entries_keys.
    apply (Permutation_in _ (Permutation_sym Hperm)). exact Hin.
Qed.

Lemma mapping_order_irrelevant_witness :
  flip_mapping (mkContext MDATA_ROOT sol_metadata_new) "PartOf"
    (rev real_entries ++ [mkMetaMap None 0; mkMetaMap (Some "PartOf") MDATA_NAME])
  = flip_mapping (mkContext MDATA_ROOT sol_metadata_new) "PartOf"
      meta_mapping.
Proof.
  exact (mapping_order_irrelevant (mkContext MDATA_ROOT sol_metadata_new)
           "PartOf" (rev real_entries)
           [mkMetaMap (Some "PartOf") MDATA_NAME]
           (Permutation_rev real_entries)).
Defined.
